(** * Attack-path analysis: a shallow embedding of the policy-condition
    evaluator, the security graph, the path analyzer, the threat scorer and
    the solver driver of the [src/] Python package. *)

From Stdlib Require Import String Ascii List ZArith QArith Bool Lia.
From Stdlib Require Import Lqa Sorted Permutation.
Import ListNotations.
Open Scope string_scope.
Open Scope Z_scope.
Local Set Warnings "-register-all".

(** ** Python values and exceptions *)

(** The JSON-shaped values the program handles: condition values, context
    values, policy documents, CSV rows and graph attributes.  A dict is an
    association list in insertion order with unique keys. *)
Inductive pyval : Type :=
| PNone : pyval
| PBool : bool -> pyval
| PInt : Z -> pyval
| PStr : string -> pyval
| PList : list pyval -> pyval
| PDict : list (string * pyval) -> pyval.

(** A raised Python exception: its class name and [str(e)]. *)
Record pyexc : Type := mk_exc { exc_class : string; exc_msg : string }.

(** Python computations that may raise. *)
Inductive exc (A : Type) : Type :=
| Ok : A -> exc A
| Raise : pyexc -> exc A.
Arguments Ok {A} _.
Arguments Raise {A} _.

Definition exc_bind {A B} (m : exc A) (f : A -> exc B) : exc B :=
  match m with
  | Ok a => f a
  | Raise e => Raise e
  end.

Notation "'let*' x := m 'in' k" := (exc_bind m (fun x => k))
  (at level 200, x name, m at level 100, k at level 200).

Fixpoint exc_map {A B} (f : A -> exc B) (l : list A) : exc (list B) :=
  match l with
  | [] => Ok []
  | x :: r => let* y := f x in let* ys := exc_map f r in Ok (y :: ys)
  end.

Definition type_name (v : pyval) : string :=
  match v with
  | PNone => "NoneType" | PBool _ => "bool" | PInt _ => "int"
  | PStr _ => "str" | PList _ => "list" | PDict _ => "dict"
  end.

Definition attribute_error (v : pyval) (attr : string) : pyexc :=
  mk_exc "AttributeError"
    ("'" ++ type_name v ++ "' object has no attribute '" ++ attr ++ "'").

(** Python truthiness ([bool(v)]). *)
Definition truthy (v : pyval) : bool :=
  match v with
  | PNone => false
  | PBool b => b
  | PInt z => negb (z =? 0)
  | PStr s => negb (String.eqb s "")
  | PList l => negb (match l with [] => true | _ => false end)
  | PDict d => negb (match d with [] => true | _ => false end)
  end.

(** [d.get(k)] on a dict with string keys. *)
Fixpoint dict_get {A} (d : list (string * A)) (k : string) : option A :=
  match d with
  | [] => None
  | (k', v) :: r => if String.eqb k k' then Some v else dict_get r k
  end.

Definition dict_get_default (d : list (string * pyval)) (k : string)
    (dflt : pyval) : pyval :=
  match dict_get d k with Some v => v | None => dflt end.

(** [d[k] = v]: update in place, or append a new key. *)
Fixpoint dict_set {A} (d : list (string * A)) (k : string) (v : A)
    : list (string * A) :=
  match d with
  | [] => [(k, v)]
  | (k', v') :: r =>
      if String.eqb k k' then (k', v) :: r else (k', v') :: dict_set r k v
  end.

(** [d.update(e)]. *)
Definition dict_update {A} (d e : list (string * A)) : list (string * A) :=
  fold_left (fun acc kv => dict_set acc (fst kv) (snd kv)) e d.

(** [v.get(k, dflt)] on an arbitrary value: only dicts have [get]. *)
Definition py_get (v : pyval) (k : string) (dflt : pyval) : exc pyval :=
  match v with
  | PDict d => Ok (dict_get_default d k dflt)
  | _ => Raise (attribute_error v "get")
  end.

(** [str.split(sep)] for a one-character separator. *)
Fixpoint py_split_aux (sep : ascii) (s : string) (cur : string)
    : list string :=
  match s with
  | EmptyString => [cur]
  | String c r =>
      if Ascii.eqb c sep then cur :: py_split_aux sep r ""
      else py_split_aux sep r (cur ++ String c EmptyString)
  end.

Definition py_split (sep : ascii) (s : string) : list string :=
  py_split_aux sep s "".

(** [s.count(c)]. *)
Fixpoint count_char (c : ascii) (s : string) : nat :=
  match s with
  | EmptyString => O
  | String d r => (if Ascii.eqb d c then 1 else 0) + count_char c r
  end%nat.

(** ASCII [str.lower] / [str.upper]. *)
Definition lower_char (c : ascii) : ascii :=
  let n := nat_of_ascii c in
  if andb (Nat.leb 65 n) (Nat.leb n 90) then ascii_of_nat (n + 32) else c.

Definition upper_char (c : ascii) : ascii :=
  let n := nat_of_ascii c in
  if andb (Nat.leb 97 n) (Nat.leb n 122) then ascii_of_nat (n - 32) else c.

Fixpoint str_map (f : ascii -> ascii) (s : string) : string :=
  match s with
  | EmptyString => EmptyString
  | String c r => String (f c) (str_map f r)
  end.

Definition py_lower (s : string) : string := str_map lower_char s.
Definition py_upper (s : string) : string := str_map upper_char s.

(** [sub in s] for strings. *)
Definition str_contains (s sub : string) : bool :=
  match String.index 0 sub s with Some _ => true | None => false end.

(** Decimal rendering of an integer, as [str(int)]. *)
Fixpoint digits_of (fuel : nat) (n : Z) (acc : string) : string :=
  match fuel with
  | O => acc
  | S f =>
      let d := Z.to_nat (n mod 10) in
      let acc' := String (ascii_of_nat (48 + d)) acc in
      if n <? 10 then acc' else digits_of f (n / 10) acc'
  end.

Definition z_to_str (z : Z) : string :=
  if z <? 0 then "-" ++ digits_of (Z.to_nat (Z.log2 (- z) + 2)) (- z) ""
  else digits_of (Z.to_nat (Z.log2 z + 2)) z "".

(** ** The library calls of the condition evaluator

    [str()], [float()], [re.match] and the [ipaddress] module are used by
    the operator helpers; they are an interface here, so that every theorem
    about the evaluator holds whatever their exact behaviour.  [py_float]
    returns [None] where [float()] raises [ValueError]/[TypeError];
    [re_fullmatch p s] is [re.match("^" + p + "$", s) is not None] and is
    [None] where the pattern does not compile ([re.error]). *)
Class PyLib : Type := {
  py_str : pyval -> string;
  flt : Type;
  py_float : pyval -> option flt;
  flt_eqb : flt -> flt -> bool;
  flt_ltb : flt -> flt -> bool;
  flt_leb : flt -> flt -> bool;
  re_fullmatch : string -> string -> option bool;
  ip_addr : Type;
  ip_net : Type;
  ip_address : string -> option ip_addr;
  ip_network : string -> option ip_net;
  ip_in_network : ip_addr -> ip_net -> bool;
  ip_eqb : ip_addr -> ip_addr -> bool
}.

(** Lexicographic order on strings, as Python's [<] on [str]. *)
Fixpoint str_ltb (a b : string) : bool :=
  match a, b with
  | EmptyString, EmptyString => false
  | EmptyString, String _ _ => true
  | String _ _, EmptyString => false
  | String c r, String d t =>
      let n := nat_of_ascii c in
      let m := nat_of_ascii d in
      if Nat.ltb n m then true else if Nat.ltb m n then false else str_ltb r t
  end.

(** [s.replace(c, rep)] for a one-character pattern. *)
Fixpoint str_replace_char (c : ascii) (rep : string) (s : string) : string :=
  match s with
  | EmptyString => EmptyString
  | String d r =>
      if Ascii.eqb d c then rep ++ str_replace_char c rep r
      else String d (str_replace_char c rep r)
  end.

Definition re_error : pyexc := mk_exc "error" "invalid regular expression".

(** ** ConditionEvaluator ([src/src/analysis/condition_evaluator.py]) *)
Section ConditionEvaluator.
Context {L : PyLib}.

(** [values = policy_val if isinstance(policy_val, list) else [policy_val]] *)
Definition as_values (policy_val : pyval) : list pyval :=
  match policy_val with PList l => l | v => [v] end.

Definition _string_equals (context_val policy_val : pyval) : bool :=
  match context_val with
  | PNone => false
  | _ =>
      match policy_val with
      | PList l => existsb (fun v => String.eqb (py_str context_val) (py_str v)) l
      | _ => String.eqb (py_str context_val) (py_str policy_val)
      end
  end.

Definition _string_equals_ignore_case (context_val policy_val : pyval) : bool :=
  match context_val with
  | PNone => false
  | _ =>
      let context_lower := py_lower (py_str context_val) in
      match policy_val with
      | PList l => existsb (fun v => String.eqb context_lower (py_lower (py_str v))) l
      | _ => String.eqb context_lower (py_lower (py_str policy_val))
      end
  end.

(** The loop [for val in values: if re.match(...): return True]; a pattern
    that does not compile raises out of the helper. *)
Fixpoint first_match (to_pattern : pyval -> string) (subject : string)
    (values : list pyval) : exc bool :=
  match values with
  | [] => Ok false
  | v :: r =>
      match re_fullmatch (to_pattern v) subject with
      | None => Raise re_error
      | Some true => Ok true
      | Some false => first_match to_pattern subject r
      end
  end.

Definition like_pattern (v : pyval) : string :=
  str_replace_char "?" "."
    (str_replace_char "*" ".*" (str_replace_char "." "\." (py_str v))).

Definition _string_like (context_val policy_val : pyval) : exc bool :=
  match context_val with
  | PNone => Ok false
  | _ => first_match like_pattern (py_str context_val) (as_values policy_val)
  end.

(** One policy value of [_ip_address_match]: a CIDR range when it contains
    ["/"], an individual address otherwise; a [ValueError] skips it. *)
Definition ip_value_matches (context_ip : ip_addr) (v : pyval) : bool :=
  let s := py_str v in
  if str_contains s "/" then
    match ip_network s with
    | Some network => ip_in_network context_ip network
    | None => false
    end
  else
    match ip_address s with
    | Some policy_ip => ip_eqb context_ip policy_ip
    | None => false
    end.

(** Whether one policy value of [_ip_address_match] parses (as a network
    when it contains ["/"], as an address otherwise). *)
Definition ip_value_parses (v : pyval) : bool :=
  let s := py_str v in
  if str_contains s "/" then
    match ip_network s with Some _ => true | None => false end
  else
    match ip_address s with Some _ => true | None => false end.

Definition _ip_address_match (context_val policy_val : pyval) : bool :=
  match context_val with
  | PNone => false
  | _ =>
      match ip_address (py_str context_val) with
      | None => false
      | Some context_ip => existsb (ip_value_matches context_ip) (as_values policy_val)
      end
  end.

Fixpoint float_all (l : list pyval) : option (list flt) :=
  match l with
  | [] => Some []
  | v :: r =>
      match py_float v, float_all r with
      | Some f, Some fs => Some (f :: fs)
      | _, _ => None
      end
  end.

Definition _numeric_equals (context_val policy_val : pyval) : bool :=
  match py_float context_val with
  | None => false
  | Some context_num =>
      match policy_val with
      | PList l =>
          match float_all l with
          | Some fs => existsb (flt_eqb context_num) fs
          | None => false
          end
      | _ =>
          match py_float policy_val with
          | Some p => flt_eqb context_num p
          | None => false
          end
      end
  end.

Definition _numeric_greater_than (context_val policy_val : pyval) (equals : bool)
    : bool :=
  match py_float context_val, py_float policy_val with
  | Some c, Some p => if equals then flt_leb p c else flt_ltb p c
  | _, _ => false
  end.

Definition _numeric_less_than (context_val policy_val : pyval) (equals : bool)
    : bool :=
  match py_float context_val, py_float policy_val with
  | Some c, Some p => if equals then flt_leb c p else flt_ltb c p
  | _, _ => false
  end.

Definition _date_greater_than (context_val policy_val : pyval) : bool :=
  str_ltb (py_str policy_val) (py_str context_val).

Definition _date_less_than (context_val policy_val : pyval) : bool :=
  str_ltb (py_str context_val) (py_str policy_val).

Definition arn_pattern (v : pyval) : string :=
  str_replace_char "?" "." (str_replace_char "*" ".*" (py_str v)).

Definition _arn_like (context_val policy_val : pyval) : exc bool :=
  match context_val with
  | PNone => Ok false
  | _ => first_match arn_pattern (py_str context_val) (as_values policy_val)
  end.

Definition truthy_word (s : string) : bool :=
  let l := py_lower s in
  String.eqb l "true" || String.eqb l "1" || String.eqb l "yes".

Definition _bool_equals (context_val policy_val : pyval) : bool :=
  Bool.eqb (truthy_word (py_str context_val)) (truthy_word (py_str policy_val)).

Definition exc_not (r : exc bool) : exc bool :=
  let* b := r in Ok (negb b).

(** [_apply_operator]: the if/elif chain over operator names. *)
Definition _apply_operator (operator : string) (context_val policy_val : pyval)
    : exc bool :=
  if String.eqb operator "StringEquals" then Ok (_string_equals context_val policy_val)
  else if String.eqb operator "StringNotEquals" then
    Ok (negb (_string_equals context_val policy_val))
  else if String.eqb operator "StringEqualsIgnoreCase" then
    Ok (_string_equals_ignore_case context_val policy_val)
  else if String.eqb operator "StringLike" then _string_like context_val policy_val
  else if String.eqb operator "StringNotLike" then
    exc_not (_string_like context_val policy_val)
  else if String.eqb operator "IpAddress" then
    Ok (_ip_address_match context_val policy_val)
  else if String.eqb operator "NotIpAddress" then
    Ok (negb (_ip_address_match context_val policy_val))
  else if String.eqb operator "NumericEquals" then
    Ok (_numeric_equals context_val policy_val)
  else if String.eqb operator "NumericNotEquals" then
    Ok (negb (_numeric_equals context_val policy_val))
  else if String.eqb operator "NumericGreaterThan" then
    Ok (_numeric_greater_than context_val policy_val false)
  else if String.eqb operator "NumericGreaterThanEquals" then
    Ok (_numeric_greater_than context_val policy_val true)
  else if String.eqb operator "NumericLessThan" then
    Ok (_numeric_less_than context_val policy_val false)
  else if String.eqb operator "NumericLessThanEquals" then
    Ok (_numeric_less_than context_val policy_val true)
  else if String.eqb operator "NumericDateGreaterThan" then
    Ok (_date_greater_than context_val policy_val)
  else if String.eqb operator "NumericDateLessThan" then
    Ok (_date_less_than context_val policy_val)
  else if String.eqb operator "ArnLike" then _arn_like context_val policy_val
  else if String.eqb operator "ArnNotLike" then
    exc_not (_arn_like context_val policy_val)
  else if String.eqb operator "Bool" then Ok (_bool_equals context_val policy_val)
  else Ok false.

(** The operator names [_apply_operator] dispatches on. *)
Definition supported_operators : list string :=
  ["StringEquals"; "StringNotEquals"; "StringEqualsIgnoreCase"; "StringLike";
   "StringNotLike"; "IpAddress"; "NotIpAddress"; "NumericEquals";
   "NumericNotEquals"; "NumericGreaterThan"; "NumericGreaterThanEquals";
   "NumericLessThan"; "NumericLessThanEquals"; "NumericDateGreaterThan";
   "NumericDateLessThan"; "ArnLike"; "ArnNotLike"; "Bool"].

(** [except Exception: return False]. *)
Definition catch_false (r : exc bool) : bool :=
  match r with Ok b => b | Raise _ => false end.

(** [_evaluate_condition_key]; [context] is the evaluator's dict. *)
Definition _evaluate_condition_key (context : list (string * pyval))
    (key : string) (value : pyval) : bool :=
  match py_split ":" key with
  | [operator; context_key] =>
      catch_false (_apply_operator operator
                     (dict_get_default context context_key PNone) value)
  | [context_key] =>
      catch_false (_apply_operator "StringEquals"
                     (dict_get_default context context_key PNone) value)
  | _ => false
  end.

(** [is_satisfied]. *)
Definition is_satisfied (context : list (string * pyval)) (condition : pyval)
    : bool :=
  if negb (truthy condition) then true
  else
    match condition with
    | PDict items =>
        forallb (fun kv => _evaluate_condition_key context (fst kv) (snd kv)) items
    | _ => false
    end.

End ConditionEvaluator.

(** ** A concrete library for evaluation on examples

    [py_lib] implements the library interface on the fragment the examples
    use: [str()] of every value (strings inside containers are shown in
    single quotes, without escaping); [float()] of ints, bools and decimal
    strings (sign, digits, an optional fraction, surrounding blanks),
    compared exactly; regular expressions made of literal characters, [.],
    escaped characters and [x*], anchored as [^...$] (every other character
    is read literally); IPv4 addresses in dotted-quad form and IPv4 networks
    [a.b.c.d/n] read with [strict=False].  IPv6 literals, exponents,
    [inf]/[nan] and netmask-style networks lie outside the fragment. *)
Module ConcreteLib.

Fixpoint join (sep : string) (l : list string) : string :=
  match l with
  | [] => ""
  | [x] => x
  | x :: r => x ++ sep ++ join sep r
  end.

Fixpoint show_q (quote : bool) (v : pyval) : string :=
  match v with
  | PNone => "None"
  | PBool true => "True"
  | PBool false => "False"
  | PInt z => z_to_str z
  | PStr s => if quote then "'" ++ s ++ "'" else s
  | PList l => "[" ++ join ", " (map (show_q true) l) ++ "]"
  | PDict d =>
      "{" ++ join ", " (map (fun '(k, x) => "'" ++ k ++ "': " ++ show_q true x) d)
      ++ "}"
  end.

Definition show (v : pyval) : string := show_q false v.

Fixpoint to_chars (s : string) : list ascii :=
  match s with EmptyString => [] | String c r => c :: to_chars r end.

Definition is_digit (c : ascii) : bool :=
  andb (Nat.leb 48 (nat_of_ascii c)) (Nat.leb (nat_of_ascii c) 57).

Definition digit_val (c : ascii) : Z := Z.of_nat (nat_of_ascii c - 48).

Definition is_blank (c : ascii) : bool :=
  let n := nat_of_ascii c in orb (Nat.eqb n 32) (andb (Nat.leb 9 n) (Nat.leb n 13)).

Fixpoint drop_while (p : ascii -> bool) (l : list ascii) : list ascii :=
  match l with
  | c :: r => if p c then drop_while p r else l
  | [] => []
  end.

Definition strip (l : list ascii) : list ascii :=
  rev (drop_while is_blank (rev (drop_while is_blank l))).

(** Digits to a natural number with its digit count; [None] if empty or a
    non-digit occurs. *)
Fixpoint digits_value (l : list ascii) (acc : Z) : option Z :=
  match l with
  | [] => Some acc
  | c :: r => if is_digit c then digits_value r (10 * acc + digit_val c) else None
  end.

Definition parse_unsigned (l : list ascii) : option Q :=
  let fix split_dot (l : list ascii) (pre : list ascii) :=
    match l with
    | [] => (rev pre, None)
    | c :: r => if Ascii.eqb c "." then (rev pre, Some r) else split_dot r (c :: pre)
    end in
  match split_dot l [] with
  | ([], None) => None
  | ([], Some []) => None
  | (ip, None) => option_map (fun z => inject_Z z) (digits_value ip 0)
  | (ip, Some fp) =>
      match digits_value ip 0, digits_value fp 0 with
      | Some a, Some b =>
          Some (inject_Z a + Qmake b (Pos.of_nat (Nat.pow 10 (length fp))))%Q
      | _, _ => None
      end
  end.

Definition parse_float (s : string) : option Q :=
  match strip (to_chars s) with
  | c :: r =>
      if Ascii.eqb c "-" then option_map Qopp (parse_unsigned r)
      else if Ascii.eqb c "+" then parse_unsigned r
      else parse_unsigned (c :: r)
  | [] => None
  end.

Definition float_of (v : pyval) : option Q :=
  match v with
  | PInt z => Some (inject_Z z)
  | PBool b => Some (if b then 1 else 0)%Q
  | PStr s => parse_float s
  | _ => None
  end.

(** Regular expressions of the fragment. *)
Inductive atom : Type := AnyChar | Lit (c : ascii).

Definition atom_ok (a : atom) (c : ascii) : bool :=
  match a with
  | AnyChar => negb (Nat.eqb (nat_of_ascii c) 10)
  | Lit d => Ascii.eqb c d
  end.

Fixpoint tokens_fuel (fuel : nat) (l : list ascii) : list (atom * bool) :=
  match fuel, l with
  | _, [] => []
  | O, _ => []
  | S f, c :: r =>
      let '(a, rest) :=
        if Ascii.eqb c "\" then
          match r with d :: r' => (Lit d, r') | [] => (Lit c, []) end
        else if Ascii.eqb c "." then (AnyChar, r) else (Lit c, r) in
      match rest with
      | s :: rest' => if Ascii.eqb s "*" then (a, true) :: tokens_fuel f rest'
                      else (a, false) :: tokens_fuel f rest
      | [] => [(a, false)]
      end
  end.

Definition tokens (l : list ascii) : list (atom * bool) := tokens_fuel (length l) l.

Fixpoint matches (toks : list (atom * bool)) : list ascii -> bool :=
  match toks with
  | [] => fun s => match s with [] => true | _ => false end
  | (a, false) :: r =>
      fun s => match s with c :: s' => atom_ok a c && matches r s' | [] => false end
  | (a, true) :: r =>
      fix star (s : list ascii) : bool :=
        matches r s || match s with c :: s' => atom_ok a c && star s' | [] => false end
  end.

(** [re.match("^" + p + "$", s)]: [$] also matches before a final newline. *)
Definition fullmatch (p s : string) : option bool :=
  let toks := tokens (to_chars p) in
  let cs := to_chars s in
  Some (matches toks cs ||
        match rev cs with
        | c :: r => Nat.eqb (nat_of_ascii c) 10 && matches toks (rev r)
        | [] => false
        end).

(** IPv4 addresses as 32-bit integers. *)
Definition octet (part : string) : option Z :=
  match to_chars part with
  | [] => None
  | cs =>
      if Nat.ltb 3 (length cs) then None
      else if andb (Nat.ltb 1 (length cs)) (Ascii.eqb (hd "0"%char cs) "0") then None
      else match digits_value cs 0 with
           | Some z => if z <=? 255 then Some z else None
           | None => None
           end
  end.

Definition ipv4 (s : string) : option Z :=
  match py_split "." s with
  | [a; b; c; d] =>
      match octet a, octet b, octet c, octet d with
      | Some a, Some b, Some c, Some d =>
          Some (((a * 256 + b) * 256 + c) * 256 + d)
      | _, _, _, _ => None
      end
  | _ => None
  end.

Definition ipv4_network (s : string) : option (Z * Z) :=
  match py_split "/" s with
  | [a; n] =>
      match ipv4 a, (match to_chars n with [] => None | cs => digits_value cs 0 end) with
      | Some addr, Some len =>
          if len <=? 32 then Some (Z.shiftr addr (32 - len), len) else None
      | _, _ => None
      end
  | _ => None
  end.

Definition ip_in (a : Z) (n : Z * Z) : bool :=
  Z.eqb (Z.shiftr a (32 - snd n)) (fst n).

End ConcreteLib.

#[export] Instance py_lib : PyLib := {
  py_str := ConcreteLib.show;
  flt := Q;
  py_float := ConcreteLib.float_of;
  flt_eqb := Qeq_bool;
  flt_ltb := fun a b => negb (Qle_bool b a);
  flt_leb := Qle_bool;
  re_fullmatch := ConcreteLib.fullmatch;
  ip_addr := Z;
  ip_net := Z * Z;
  ip_address := ConcreteLib.ipv4;
  ip_network := ConcreteLib.ipv4_network;
  ip_in_network := ConcreteLib.ip_in;
  ip_eqb := Z.eqb
}.

(** ** Graph nodes and the networkx [DiGraph] ([src/src/graph/build_graph.py])

    Node identifiers are hashable Python scalars; as in Python, [1] and
    [True] are the same key. *)
Inductive hkey : Type :=
| KNone : hkey
| KBool : bool -> hkey
| KInt : Z -> hkey
| KStr : string -> hkey.

Definition key_eqb (a b : hkey) : bool :=
  match a, b with
  | KNone, KNone => true
  | KBool x, KBool y => Bool.eqb x y
  | KBool x, KInt z | KInt z, KBool x => Z.eqb z (if x then 1 else 0)
  | KInt x, KInt y => Z.eqb x y
  | KStr x, KStr y => String.eqb x y
  | _, _ => false
  end.

(** [str()] of a node identifier. *)
Definition key_str (k : hkey) : string :=
  match k with
  | KNone => "None"
  | KBool true => "True"
  | KBool false => "False"
  | KInt z => z_to_str z
  | KStr s => s
  end.

(** Using a value as a dict key: lists and dicts are unhashable. *)
Definition key_of (v : pyval) : exc hkey :=
  match v with
  | PNone => Ok KNone
  | PBool b => Ok (KBool b)
  | PInt z => Ok (KInt z)
  | PStr s => Ok (KStr s)
  | _ => Raise (mk_exc "TypeError" ("unhashable type: '" ++ type_name v ++ "'"))
  end.

(** Dicts keyed by node identifiers, in insertion order. *)
Fixpoint kget {A} (d : list (hkey * A)) (k : hkey) : option A :=
  match d with
  | [] => None
  | (k', v) :: r => if key_eqb k k' then Some v else kget r k
  end.

Definition kmem {A} (d : list (hkey * A)) (k : hkey) : bool :=
  match kget d k with Some _ => true | None => false end.

Fixpoint kset {A} (d : list (hkey * A)) (k : hkey) (v : A) : list (hkey * A) :=
  match d with
  | [] => [(k, v)]
  | (k', v') :: r => if key_eqb k k' then (k', v) :: r else (k', v') :: kset r k v
  end.

Definition attrs := list (string * pyval).

(** A [DiGraph]: node attribute dicts ([_node]) and successor dicts
    ([_succ], which is [_adj]); the predecessor dicts are not read by the
    program. *)
Record digraph : Type := mk_digraph {
  g_node : list (hkey * attrs);
  g_succ : list (hkey * list (hkey * attrs))
}.

Definition empty_digraph : digraph := mk_digraph [] [].

Definition none_node_error : pyexc := mk_exc "ValueError" "None cannot be a node".

(** [G.add_node(n, **attr)]. *)
Definition add_node (g : digraph) (n : hkey) (attr : attrs) : exc digraph :=
  match kget (g_node g) n with
  | Some old => Ok (mk_digraph (kset (g_node g) n (dict_update old attr)) (g_succ g))
  | None =>
      match n with
      | KNone => Raise none_node_error
      | _ => Ok (mk_digraph (g_node g ++ [(n, dict_update [] attr)])
                            (g_succ g ++ [(n, [])]))
      end
  end.

(** The node-creating prelude of [add_edge]. *)
Definition ensure_node (g : digraph) (n : hkey) : exc digraph :=
  if kmem (g_succ g) n then Ok g
  else match n with
       | KNone => Raise none_node_error
       | _ => Ok (mk_digraph (g_node g ++ [(n, [])]) (g_succ g ++ [(n, [])]))
       end.

(** [G.add_edge(u, v, **attr)]: the data dict of an existing edge [u -> v]
    is updated with [attr]; a [DiGraph] holds one edge per ordered pair. *)
Definition add_edge (g : digraph) (u v : hkey) (attr : attrs) : exc digraph :=
  let* g1 := ensure_node g u in
  let* g2 := ensure_node g1 v in
  let nbrs := match kget (g_succ g2) u with Some m => m | None => [] end in
  let datadict := match kget nbrs v with Some d => d | None => [] end in
  Ok (mk_digraph (g_node g2)
                 (kset (g_succ g2) u (kset nbrs v (dict_update datadict attr)))).

(** [n in G]. *)
Definition has_node (g : digraph) (n : hkey) : bool := kmem (g_node g) n.

(** [G.get_edge_data(u, v)]. *)
Definition get_edge_data (g : digraph) (u v : hkey) : option attrs :=
  match kget (g_succ g) u with
  | Some nbrs => kget nbrs v
  | None => None
  end.

(** [G.nodes.get(n, {})]. *)
Definition node_data (g : digraph) (n : hkey) : attrs :=
  match kget (g_node g) n with Some d => d | None => [] end.

Definition successors (g : digraph) (u : hkey) : list hkey :=
  match kget (g_succ g) u with Some nbrs => map fst nbrs | None => [] end.

(** [nx.all_simple_paths(G, source, target, cutoff)] (networkx 3.3 and
    later; the repository pins no version): depth-first over the successor
    dicts in insertion order, paths without repeated nodes and with at most
    [cutoff] edges, each reported when the search reaches [target] (it does
    not continue past it).  [visited] is the current path, newest node
    first. *)
Fixpoint simple_paths_from (g : digraph) (target : hkey) (fuel : nat)
    (visited : list hkey) (v : hkey) : list (list hkey) :=
  match fuel with
  | O => []
  | S f =>
      flat_map (fun w =>
        if existsb (key_eqb w) visited then []
        else if key_eqb w target then [rev (w :: visited)]
        else simple_paths_from g target f (w :: visited) w) (successors g v)
  end.

(** [_all_simple_edge_paths] starts from a dummy edge into [source], so
    when [source] is the target (and [cutoff >= 0]) the one-node path
    [[source]] is reported, and the search stops there since no other target
    is left; a negative cutoff gives nothing. *)
Definition all_simple_paths (g : digraph) (source target : hkey) (cutoff : Z)
    : list (list hkey) :=
  if key_eqb source target then
    (if Z.leb 0 cutoff then [[source]] else [])
  else simple_paths_from g target (Z.to_nat cutoff) [source] source.

(** [obj[key]] on a value. *)
Definition py_getitem (v : pyval) (k : string) : exc pyval :=
  match v with
  | PDict d =>
      match dict_get d k with
      | Some x => Ok x
      | None => Raise (mk_exc "KeyError" ("'" ++ k ++ "'"))
      end
  | _ => Raise (mk_exc "TypeError"
                  ("'" ++ type_name v ++ "' object is not subscriptable"))
  end.

(** [s.lower()] on a value: only strings have it. *)
Definition py_lower_val (v : pyval) : exc string :=
  match v with
  | PStr s => Ok (py_lower s)
  | _ => Raise (attribute_error v "lower")
  end.

(** [",".join(items)]. *)
Definition py_join_comma (items : list pyval) : exc string :=
  let* ss := exc_map (fun x => match x with
                               | PStr s => Ok s
                               | _ => Raise (mk_exc "TypeError"
                                       ("sequence item: expected str instance, "
                                        ++ type_name x ++ " found"))
                               end) items in
  Ok (ConcreteLib.join "," ss).

Fixpoint exc_fold {A B} (f : A -> B -> exc A) (acc : A) (l : list B) : exc A :=
  match l with
  | [] => Ok acc
  | x :: r => let* acc' := f acc x in exc_fold f acc' r
  end.

(** The asset loop of [build_graph]. *)
Definition add_asset (g : digraph) (asset : pyval) : exc digraph :=
  let* id := py_getitem asset "id" in
  let* ty := py_getitem asset "type" in
  let* crit := py_get asset "criticality" (PStr "normal") in
  let* descr := py_get asset "description" (PStr "") in
  let* n := key_of id in
  add_node g n [("type", ty); ("criticality", crit); ("description", descr)].

(** The firewall-rule loop of [build_graph]: an allowed rule becomes a
    network edge. *)
Definition add_firewall_rule (g : digraph) (rule : pyval) : exc digraph :=
  let* action := py_get rule "action" (PStr "") in
  let* action := py_lower_val action in
  if String.eqb action "allow" then
    let* source := py_get rule "source" PNone in
    let* destination := py_get rule "destination" PNone in
    if truthy source && truthy destination then
      let* rule_name := py_get rule "rule_name" (PStr "firewall_rule") in
      let* protocol := py_get rule "protocol" (PStr "any") in
      let* port := py_get rule "port" (PStr "any") in
      let* u := key_of source in
      let* v := key_of destination in
      add_edge g u v [("type", PStr "network"); ("rule_name", rule_name);
                      ("protocol", protocol); ("port", port)]
    else Ok g
  else Ok g.

(** The IAM-policy loop of [build_graph]: an allowing policy becomes an iam
    edge from its principal to its resource carrying its condition. *)
Definition add_iam_policy (g : digraph) (policy : pyval) : exc digraph :=
  let* effect := py_get policy "Effect" (PStr "") in
  let* effect := py_lower_val effect in
  if String.eqb effect "allow" then
    let* principal := py_get policy "Principal" PNone in
    let* resource := py_get policy "Resource" PNone in
    if truthy principal && truthy resource then
      let* act := py_get policy "Action" PNone in
      let* action :=
        match act with
        | PList items => let* joined := py_join_comma items in Ok (PStr joined)
        | _ => py_get policy "Action" (PStr "")
        end in
      let* condition := py_get policy "Condition" PNone in
      let* policy_name := py_get policy "PolicyName" (PStr "default") in
      let* u := key_of principal in
      let* v := key_of resource in
      add_edge g u v [("type", PStr "iam"); ("action", action);
                      ("condition", condition); ("policy_name", policy_name)]
    else Ok g
  else Ok g.

(** [build_graph], given what the three loaders returned: asset nodes,
    then network edges, then IAM edges. *)
Definition build_graph (assets rules policies : list pyval) : exc digraph :=
  let* g := exc_fold add_asset empty_digraph assets in
  let* g := exc_fold add_firewall_rule g rules in
  exc_fold add_iam_policy g policies.

(** ** AttackPathAnalyzer ([src/src/analysis/find_paths.py]) *)

(** Consecutive node pairs of a path: [(path[i], path[i+1])]. *)
Fixpoint steps {A} (p : list A) : list (A * A) :=
  match p with
  | x :: ((y :: _) as r) => (x, y) :: steps r
  | _ => []
  end.

Definition cache_key := (hkey * hkey)%type.

Definition cache_key_eqb (a b : cache_key) : bool :=
  key_eqb (fst a) (fst b) && key_eqb (snd a) (snd b).

Fixpoint cache_get (c : list (cache_key * list (list hkey))) (k : cache_key)
    : option (list (list hkey)) :=
  match c with
  | [] => None
  | (k', v) :: r => if cache_key_eqb k k' then Some v else cache_get r k
  end.

Fixpoint cache_set (c : list (cache_key * list (list hkey))) (k : cache_key)
    (v : list (list hkey)) : list (cache_key * list (list hkey)) :=
  match c with
  | [] => [(k, v)]
  | (k', v') :: r =>
      if cache_key_eqb k k' then (k', v) :: r else (k', v') :: cache_set r k v
  end.

(** The analyzer object: the graph it was given (a shared, mutable
    reference in Python), the evaluator's context, [max_depth], the path
    cache and the metrics. *)
Record analyzer : Type := mk_analyzer {
  an_graph : digraph;
  an_context : list (string * pyval);
  an_max_depth : Z;
  an_path_cache : list (cache_key * list (list hkey));
  an_total_paths_found : nat;
  an_paths_pruned : nat;
  an_evaluation_time : Q
}.

(** [AttackPathAnalyzer(graph, context, max_depth)]. *)
Definition new_analyzer (graph : digraph) (context : list (string * pyval))
    (max_depth : Z) : analyzer :=
  mk_analyzer graph context max_depth [] O O 0%Q.

Section Analyzer.
Context {L : PyLib}.

Definition edge_type_is (d : attrs) (t : string) : bool :=
  match dict_get d "type" with Some (PStr s) => String.eqb s t | _ => false end.

(** [_is_path_valid]: every step needs an edge; an iam edge also needs its
    condition to be satisfied. *)
Definition _is_path_valid (a : analyzer) (path : list hkey) : bool :=
  forallb (fun st =>
    match get_edge_data (an_graph a) (fst st) (snd st) with
    | None => false
    | Some edge_data =>
        if edge_type_is edge_data "iam"
        then is_satisfied (an_context a) (dict_get_default edge_data "condition" PNone)
        else true
    end) (steps path).

Definition node_not_found (which : string) (n : hkey) : pyexc :=
  mk_exc "ValueError" (which ++ " node '" ++ key_str n ++ "' not found in graph").

(** [find_attack_paths(source, target, use_cache)]; [elapsed] is the wall
    time the enumeration took.  The result is the returned list or the
    raised exception, with the analyzer after the call. *)
Definition find_attack_paths (a : analyzer) (source target : hkey)
    (use_cache : bool) (elapsed : Q) : exc (list (list hkey)) * analyzer :=
  let key := (source, target) in
  match (if use_cache then cache_get (an_path_cache a) key else None) with
  | Some cached => (Ok cached, a)
  | None =>
      if negb (has_node (an_graph a) source) then
        (Raise (node_not_found "Source" source), a)
      else if negb (has_node (an_graph a) target) then
        (Raise (node_not_found "Target" target), a)
      else
        let all_paths := all_simple_paths (an_graph a) source target (an_max_depth a) in
        let valid_paths := filter (_is_path_valid a) all_paths in
        let pruned := length (filter (fun p => negb (_is_path_valid a p)) all_paths) in
        (Ok valid_paths,
         mk_analyzer (an_graph a) (an_context a) (an_max_depth a)
           (if use_cache then cache_set (an_path_cache a) key valid_paths
            else an_path_cache a)
           (an_total_paths_found a + length valid_paths)
           (an_paths_pruned a + pruned)
           (an_evaluation_time a + elapsed))
  end.

(** [explain_path]: one line per step whose edge is a network or an iam
    edge; a step without an edge is skipped. *)
Definition explain_step (a : analyzer) (i : nat) (src dst : hkey) : list string :=
  match get_edge_data (an_graph a) src dst with
  | None => []
  | Some edge_data =>
      let step_num := z_to_str (Z.of_nat (S i)) in
      if edge_type_is edge_data "network" then
        let rule_name := dict_get_default edge_data "rule_name" (PStr "firewall rule") in
        ["Step " ++ step_num ++ ": [" ++ key_str src ++ "] can reach [" ++ key_str dst
         ++ "] via network (" ++ py_str rule_name ++ ")"]
      else if edge_type_is edge_data "iam" then
        let action := dict_get_default edge_data "action" (PStr "access") in
        let condition := dict_get_default edge_data "condition" PNone in
        let condition_info :=
          if truthy condition
          then " (conditions satisfied: " ++ py_str condition ++ ")" else "" in
        ["Step " ++ step_num ++ ": [" ++ key_str src ++ "] has IAM permission to ["
         ++ key_str dst ++ "] (" ++ py_str action ++ ")" ++ condition_info]
      else []
  end.

Fixpoint explain_steps (a : analyzer) (i : nat) (st : list (hkey * hkey))
    : list string :=
  match st with
  | [] => []
  | (src, dst) :: r => explain_step a i src dst ++ explain_steps a (S i) r
  end.

Definition explain_path (a : analyzer) (path : list hkey) : list string :=
  if Nat.ltb (length path) 2 then [] else explain_steps a O (steps path).

End Analyzer.

(** [score_path]: the risk score, a float that only takes integral values
    here, so it is kept as an integer.  A step without an edge reaches
    [edge_data.get] with [edge_data = None]. *)
Record step_counts : Type := mk_counts {
  iam_count : Z; network_count : Z; conditions_bypassed : Z; iam_complexity : Z
}.

Definition score_step (g : digraph) (c : step_counts) (st : hkey * hkey)
    : exc step_counts :=
  match get_edge_data g (fst st) (snd st) with
  | None => Raise (attribute_error PNone "get")
  | Some edge_data =>
      if edge_type_is edge_data "iam" then
        if truthy (dict_get_default edge_data "condition" PNone)
        then Ok (mk_counts (iam_count c + 1) (network_count c)
                           (conditions_bypassed c + 1) (iam_complexity c + 5))
        else Ok (mk_counts (iam_count c + 1) (network_count c)
                           (conditions_bypassed c) (iam_complexity c))
      else if edge_type_is edge_data "network" then
        Ok (mk_counts (iam_count c) (network_count c + 1)
                      (conditions_bypassed c) (iam_complexity c))
      else Ok c
  end.

Definition criticality_bonus (criticality : pyval) : Z :=
  match criticality with
  | PStr "critical" => 40
  | PStr "high" => 30
  | PStr "medium" => 15
  | _ => 0
  end.

Definition score_path (a : analyzer) (path : list hkey) : exc Z :=
  if Nat.ltb (length path) 2 then Ok 0
  else
    let n := Z.of_nat (length path) in
    let path_length_score := Z.max 0 (25 - (n - 2) * 3) in
    let target := last path KNone in
    let criticality :=
      dict_get_default (node_data (an_graph a) target) "criticality" (PStr "normal") in
    let score := 10 + path_length_score + criticality_bonus criticality in
    let* c := exc_fold (score_step (an_graph a)) (mk_counts 0 0 0 0) (steps path) in
    Ok (Z.min 100 (score + iam_count c * 5 + conditions_bypassed c * 3)).

(** [G.remove_node(n)]: the node, its successor dict and every edge into it
    go. *)
Definition remove_node (g : digraph) (n : hkey) : digraph :=
  mk_digraph
    (filter (fun kv => negb (key_eqb n (fst kv))) (g_node g))
    (map (fun kv => (fst kv, filter (fun e => negb (key_eqb n (fst e))) (snd kv)))
         (filter (fun kv => negb (key_eqb n (fst kv))) (g_succ g))).

(** The analyzer after its (shared) graph object was changed in place by
    the caller. *)
Definition with_graph (a : analyzer) (g : digraph) : analyzer :=
  mk_analyzer g (an_context a) (an_max_depth a) (an_path_cache a)
    (an_total_paths_found a) (an_paths_pruned a) (an_evaluation_time a).

(** Steps of a path that [score_path] counts: iam edges, and iam edges with
    a non-empty condition. *)
Definition iam_step (g : digraph) (st : hkey * hkey) : bool :=
  match get_edge_data g (fst st) (snd st) with
  | Some d => edge_type_is d "iam"
  | None => false
  end.

Definition iam_condition_step (g : digraph) (st : hkey * hkey) : bool :=
  match get_edge_data g (fst st) (snd st) with
  | Some d => edge_type_is d "iam" && truthy (dict_get_default d "condition" PNone)
  | None => false
  end.

Definition has_edge (g : digraph) (st : hkey * hkey) : bool :=
  match get_edge_data g (fst st) (snd st) with Some _ => true | None => false end.

(** Steps [explain_path] writes a line for. *)
Definition explained_step (g : digraph) (st : hkey * hkey) : bool :=
  match get_edge_data g (fst st) (snd st) with
  | Some d => edge_type_is d "network" || edge_type_is d "iam"
  | None => false
  end.

(** ** Metrics and cache maintenance of the analyzer *)

(** [get_metrics()]: the three counters and [cache_size]. *)
Record metrics : Type := mk_metrics {
  m_total_paths_found : nat;
  m_paths_pruned : nat;
  m_evaluation_time : Q;
  m_cache_size : nat
}.

Definition get_metrics (a : analyzer) : metrics :=
  mk_metrics (an_total_paths_found a) (an_paths_pruned a) (an_evaluation_time a)
    (length (an_path_cache a)).

(** [clear_cache()]: the cache dict is emptied in place; the metrics stay. *)
Definition clear_cache (a : analyzer) : analyzer :=
  mk_analyzer (an_graph a) (an_context a) (an_max_depth a) []
    (an_total_paths_found a) (an_paths_pruned a) (an_evaluation_time a).

(** The value a node key stands for as a dict key: [True] and [1] (and
    [False] and [0]) are the same key. *)
Definition key_canon (k : hkey) : hkey :=
  match k with KBool b => KInt (if b then 1 else 0) | _ => k end.

(** ** Simple paths, stated directly

    [successor_chain g v p]: each node of [p] is a successor of the one
    before it, starting from [v]; [fresh_nodes visited p]: no node of [p]
    equals (as a dict key) a node of [visited] or an earlier node of [p];
    [ends_at t p]: the last node of [p] is [t] and no earlier one is. *)
Fixpoint successor_chain (g : digraph) (v : hkey) (p : list hkey) : Prop :=
  match p with
  | [] => True
  | w :: r => In w (successors g v) /\ successor_chain g w r
  end.

Fixpoint fresh_nodes (visited : list hkey) (p : list hkey) : bool :=
  match p with
  | [] => true
  | w :: r => negb (existsb (key_eqb w) visited) && fresh_nodes (w :: visited) r
  end.

Fixpoint ends_at (t : hkey) (p : list hkey) : Prop :=
  match p with
  | [] => False
  | w :: r =>
      match r with
      | [] => key_eqb w t = true
      | _ :: _ => key_eqb w t = false /\ ends_at t r
      end
  end.

(** A simple path from [source] to [target] with at most [cutoff] edges. *)
Definition simple_path (g : digraph) (source target : hkey) (cutoff : nat)
    (q : list hkey) : Prop :=
  exists p, q = source :: p /\ (length p <= cutoff)%nat /\
    successor_chain g source p /\ fresh_nodes [source] p = true /\ ends_at target p.

(** The endpoints of the edge [build_graph] adds for an allowing firewall
    rule ([effect_key] "action", endpoints "source" / "destination") or an
    allowing IAM policy ("Effect", "Principal" / "Resource"). *)
Definition allow_endpoints (v : pyval) (effect_key src_key dst_key : string)
    : option (hkey * hkey) :=
  match v with
  | PDict d =>
      match dict_get_default d effect_key (PStr "") with
      | PStr s =>
          if String.eqb (py_lower s) "allow" then
            let src := dict_get_default d src_key PNone in
            let dst := dict_get_default d dst_key PNone in
            if truthy src && truthy dst then
              match key_of src, key_of dst with
              | Ok u, Ok w => Some (u, w)
              | _, _ => None
              end
            else None
          else None
      | _ => None
      end
  | _ => None
  end.

(** ** Threat scoring: the exploitability component *)

(** Python's [max(a, b)] and [min(a, b)] on floats; the values involved are
    multiples of 0.5, which a float holds exactly, so they are kept as [Q]. *)
Definition py_max (a b : Q) : Q := if Qle_bool b a then a else b.
Definition py_min (a b : Q) : Q := if Qle_bool a b then a else b.

(** [PathThreatScorer._calculate_exploitability]. *)
Definition _calculate_exploitability (is_exploitable : bool) (path_length : Z)
    (has_auth_bypass has_privesc : bool) : Q :=
  if negb is_exploitable then 0%Q
  else
    let score : Q := 6%Q in
    let score := (score - py_max 0 (inject_Z (path_length - 1) * (1#2)))%Q in
    let score := py_max (7#2) score in
    let score := if has_auth_bypass then (score + (3#2))%Q else score in
    let score := if has_privesc then (score + 1)%Q else score in
    py_min 10%Q score.

(** [score_path] passes [len(path)] as [path_length]. *)
Definition exploitability_score (path : list string)
    (is_exploitable has_authentication_bypass has_privilege_escalation : bool) : Q :=
  _calculate_exploitability is_exploitable (Z.of_nat (length path))
    has_authentication_bypass has_privilege_escalation.

(** ** The rest of the threat scorer ([src/src/threat_scoring/threat_scorer.py])

    Floats are kept as [Q]: the weights 0.35, 0.20 and 0.10 and the factors
    0.2 and 0.3 are the decimals they are written as, so a sum is the exact
    one where Python's may differ from it in the last bits; comparisons
    with the thresholds 0, 4, 7 and 9 are as in Python on the value held.
    NaN is left out. *)
Module PathThreatScorer.

Inductive ThreatLevel : Type := CRITICAL | HIGH | MEDIUM | LOW | INFORMATIONAL.

(** [ThreatScoreComponent]. *)
Record ThreatScoreComponent : Type := mk_component {
  c_name : string;
  c_value : Q;
  c_weight : Q;
  c_description : string
}.

(** [PathThreatScore]. *)
Record PathThreatScore : Type := mk_score {
  path_id : string;
  path : list string;
  overall_score : Q;
  threat_level : ThreatLevel;
  components : list ThreatScoreComponent;
  exploitability_score : Q;
  impact_score : Q;
  lineage_score : Q;
  confidence_score : Q;
  cve_count : Z;
  max_cve_score : option Q;
  recommendations : list string
}.

(** [PathThreatScorer.WEIGHTS]. *)
Definition w_exploitability : Q := 35 # 100.
Definition w_impact : Q := 35 # 100.
Definition w_lineage : Q := 20 # 100.
Definition w_confidence : Q := 10 # 100.

(** [x or 0.0] for an optional float. *)
Definition or_zero (x : option Q) : Q :=
  match x with
  | Some q => if Qeq_bool q 0 then 0 else q
  | None => 0
  end.

Definition _calculate_impact (cvss_base_score max_cve_score : Q) (cve_count : Z) : Q :=
  let max_score := py_max cvss_base_score (if Qeq_bool max_cve_score 0 then 0 else max_cve_score) in
  let max_score := if Qeq_bool max_score 0 then 5%Q else max_score in
  if 0 <? cve_count then
    let bonus := py_min 1%Q (inject_Z cve_count * (2 # 10)) in
    py_min 10%Q (max_score + bonus)
  else max_score.

Definition _calculate_lineage_score (path : list string) : Q :=
  let length := Z.of_nat (length path) in
  if length <=? 3 then (19 # 2) - inject_Z (length - 1) * (1 # 2)
  else if length <=? 6 then 7%Q - inject_Z (length - 3) * (1 # 2)
  else py_max 3%Q (6%Q - inject_Z (length - 6) * (3 # 10)).

Definition _calculate_confidence (z3_confidence : Q) (is_exploitable : bool) : Q :=
  if negb is_exploitable then 0%Q else py_min 10%Q (z3_confidence * 10).

Definition _score_to_threat_level (score : Q) : ThreatLevel :=
  if Qle_bool 9 score then CRITICAL
  else if Qle_bool 7 score then HIGH
  else if Qle_bool 4 score then MEDIUM
  else if negb (Qle_bool score 0) then LOW
  else INFORMATIONAL.

(** [cvss_score and cvss_score >= 7.0]. *)
Definition high_cvss (cvss_score : option Q) : bool :=
  match cvss_score with
  | Some q => negb (Qeq_bool q 0) && Qle_bool 7 q
  | None => false
  end.

Definition _generate_recommendations (path : list string) (is_exploitable : bool)
    (cvss_score : option Q) (cve_count : Z) : list string :=
  if negb is_exploitable then
    ["No immediate action required - path not exploitable."]
  else
    let r1 := if Nat.ltb 4 (length path)
              then ["Consider network segmentation: Break path by isolating "
                    ++ nth (Nat.div (length path) 2) path ""]
              else [] in
    let target := last path "unknown" in
    let r2 := if existsb (String.eqb target) ["database"; "secrets"; "admin"]
              then ["Increase access controls on " ++ target
                    ++ ": Implement MFA and least-privilege IAM"]
              else [] in
    let r3 := if 0 <? cve_count
              then ["Review " ++ z_to_str cve_count ++ " associated CVEs and apply patches"]
              else if high_cvss cvss_score
              then ["High CVSS score detected - prioritize remediation"]
              else [] in
    (r1 ++ r2 ++ r3 ++ ["Implement detective controls (CloudTrail, VPC Flow Logs)"])%list.

Definition _path_to_id (path : list string) : string := ConcreteLib.join "|" path.

Definition score_path (path : list string) (is_exploitable : bool)
    (cvss_base_score : option Q) (z3_confidence : Q) (cve_count : Z)
    (max_cve_score : option Q)
    (has_authentication_bypass has_privilege_escalation : bool) : PathThreatScore :=
  let path_id := _path_to_id path in
  let exploitability :=
    _calculate_exploitability is_exploitable (Z.of_nat (length path))
      has_authentication_bypass has_privilege_escalation in
  let impact := _calculate_impact (or_zero cvss_base_score) (or_zero max_cve_score) cve_count in
  let lineage := _calculate_lineage_score path in
  let confidence := _calculate_confidence z3_confidence is_exploitable in
  let overall_score :=
    (exploitability * w_exploitability + impact * w_impact
     + lineage * w_lineage + confidence * w_confidence)%Q in
  let overall_score := py_min 10%Q (py_max 0%Q overall_score) in
  let threat_level := _score_to_threat_level overall_score in
  let recommendations :=
    _generate_recommendations path is_exploitable cvss_base_score cve_count in
  let components :=
    [mk_component "Exploitability" exploitability w_exploitability
       "Ease of exploitation based on path structure";
     mk_component "Impact" impact w_impact "Severity of impact if path is exploited";
     mk_component "Lineage" lineage w_lineage "Attack path complexity and length";
     mk_component "Confidence" confidence w_confidence
       "Confidence in Z3 verification result"] in
  mk_score path_id path overall_score threat_level components exploitability impact
    lineage confidence cve_count max_cve_score recommendations.

(** A [paths] entry of [score_multiple_paths]: each field is what
    [path_data.get(key)] finds, [None] for a missing key. *)
Record path_data : Type := mk_path_data {
  pd_path : option (list string);
  pd_is_exploitable : option bool;
  pd_cvss_base_score : option Q;
  pd_z3_confidence : option Q;
  pd_cve_count : option Z;
  pd_max_cve_score : option Q;
  pd_has_authentication_bypass : option bool;
  pd_has_privilege_escalation : option bool
}.

Definition get_or {A} (o : option A) (dflt : A) : A :=
  match o with Some x => x | None => dflt end.

Definition score_path_data (pd : path_data) : PathThreatScore :=
  score_path (get_or (pd_path pd) []) (get_or (pd_is_exploitable pd) false)
    (pd_cvss_base_score pd) (get_or (pd_z3_confidence pd) 1%Q)
    (get_or (pd_cve_count pd) 0) (pd_max_cve_score pd)
    (get_or (pd_has_authentication_bypass pd) false)
    (get_or (pd_has_privilege_escalation pd) false).

(** [list.sort(key=lambda x: x.overall_score, reverse=True)]: a stable
    sort, highest first, equal scores in their original order; here an
    insertion sort, which places a new element after every element whose
    score is not below its own. *)
Fixpoint insert_desc (x : PathThreatScore) (l : list PathThreatScore)
    : list PathThreatScore :=
  match l with
  | [] => [x]
  | y :: r =>
      if negb (Qle_bool (overall_score x) (overall_score y)) then x :: y :: r
      else y :: insert_desc x r
  end.

Definition sort_by_score_desc (l : list PathThreatScore) : list PathThreatScore :=
  fold_left (fun acc x => insert_desc x acc) l [].

Definition score_multiple_paths (paths : list path_data) : list PathThreatScore :=
  let scores := map score_path_data paths in
  sort_by_score_desc scores.

(** The order of the levels, from [INFORMATIONAL] up to [CRITICAL]. *)
Definition severity (t : ThreatLevel) : nat :=
  match t with
  | CRITICAL => 4 | HIGH => 3 | MEDIUM => 2 | LOW => 1 | INFORMATIONAL => 0
  end.

End PathThreatScorer.

(** ** The solver driver ([z3_verifier.py])

    A z3 term is kept as its syntax: the solver itself is an interface
    ([z3_check]), so that the driver's theorems hold whatever the solver
    answers. *)
Inductive zexpr : Type :=
| ZString : string -> zexpr              (* z3.String(name) *)
| ZInt : string -> zexpr                 (* z3.Int(name) *)
| ZStringVal : string -> zexpr
| ZIntVal : Z -> zexpr
| ZBoolVal : bool -> zexpr
| ZEq : zexpr -> zexpr -> zexpr
| ZGt : zexpr -> zexpr -> zexpr
| ZLt : zexpr -> zexpr -> zexpr
| ZPrefixOf : zexpr -> zexpr -> zexpr
| ZOr : list zexpr -> zexpr
| ZAnd : list zexpr -> zexpr
| ZNot : zexpr -> zexpr.

(** [solver.check()], with the model of a [sat] answer as the pairs
    [(str(var), str(model[var]))]. *)
Inductive check_result : Type :=
| Sat : list (string * string) -> check_result
| Unsat : check_result
| Unknown : check_result.

Inductive verification_result : Type := EXPLOITABLE | BLOCKED | UNKNOWN.

(** [ProofResult]; a Python [None] field is [None]. *)
Record proof_result : Type := mk_proof {
  pr_result : verification_result;
  pr_path : list string;
  pr_constraints_satisfied : option bool;
  pr_num_constraints : nat;
  pr_solver_time_ms : Q;
  pr_model : option (list (string * string));
  pr_counterexample : option (list (string * pyval));
  pr_explanation : string;
  pr_constraints_used : option (list pyval)
}.

(** [PolicyToZ3Converter]: the solver's assertions in order, the
    [constraints] list of (key, term) pairs, and the solver's timeout.  The
    converter's [context] dict only caches [z3.String(key)], which z3 gives
    back equal on every call, so it is not kept. *)
Record converter : Type := mk_converter {
  conv_assertions : list zexpr;
  conv_constraints : list (pyval * zexpr);
  conv_timeout : Z
}.

(** [PolicyToZ3Converter()] followed by [converter.solver.set("timeout",
    timeout_ms)] (an [int] parameter, passed to z3 as an unsigned). *)
Definition start_converter (timeout_ms : Z) : converter :=
  mk_converter [] [] timeout_ms.

Definition solver_add (c : converter) (e : zexpr) : converter :=
  mk_converter (conv_assertions c ++ [e]) (conv_constraints c) (conv_timeout c).

Definition record_constraint (c : converter) (name : pyval) (e : zexpr) : converter :=
  mk_converter (conv_assertions c) (conv_constraints c ++ [(name, e)]) (conv_timeout c).

Fixpoint str_chars (s : string) : list pyval :=
  match s with
  | EmptyString => []
  | String c r => PStr (String c EmptyString) :: str_chars r
  end.

(** [for x in v]. *)
Definition py_iter (v : pyval) : exc (list pyval) :=
  match v with
  | PList l => Ok l
  | PStr s => Ok (str_chars s)
  | PDict d => Ok (map (fun kv => PStr (fst kv)) d)
  | _ => Raise (mk_exc "TypeError" ("'" ++ type_name v ++ "' object is not iterable"))
  end.

(** [sub in v] for a string [sub]. *)
Definition py_in (sub : string) (v : pyval) : exc bool :=
  match v with
  | PStr s => Ok (str_contains s sub)
  | PList l => Ok (existsb (fun x => match x with PStr t => String.eqb t sub | _ => false end) l)
  | PDict d => Ok (existsb (fun kv => String.eqb (fst kv) sub) d)
  | _ => Raise (mk_exc "TypeError"
                  ("argument of type '" ++ type_name v ++ "' is not iterable"))
  end.

(** [v[0]]. *)
Definition py_index0 (v : pyval) : exc pyval :=
  match v with
  | PList (x :: _) => Ok x
  | PList [] => Raise (mk_exc "IndexError" "list index out of range")
  | PStr (String c _) => Ok (PStr (String c EmptyString))
  | PStr EmptyString => Raise (mk_exc "IndexError" "string index out of range")
  | PDict _ => Raise (mk_exc "KeyError" "0")
  | _ => Raise (mk_exc "TypeError"
                  ("'" ++ type_name v ++ "' object is not subscriptable"))
  end.

(** [v.split(sep)[0]]. *)
Definition py_split_first (sep : ascii) (v : pyval) : exc pyval :=
  match v with
  | PStr s => Ok (PStr (hd "" (py_split sep s)))
  | _ => Raise (attribute_error v "split")
  end.

Definition py_upper_val (v : pyval) : exc string :=
  match v with
  | PStr s => Ok (py_upper s)
  | _ => Raise (attribute_error v "upper")
  end.

(** [z3.Or( *cs) if cs else z3.BoolVal(dflt)]. *)
Definition z3_or_else (cs : list zexpr) (dflt : bool) : zexpr :=
  match cs with [] => ZBoolVal dflt | _ => ZOr cs end.

(** [z3.Not(z3.Or( *cs)) if cs else z3.BoolVal(True)]. *)
Definition z3_not_or (cs : list zexpr) : zexpr :=
  match cs with [] => ZBoolVal true | _ => ZNot (ZOr cs) end.

(** The U+2192 arrow of the explanations, in UTF-8, between spaces. *)
Definition arrow_sep : string :=
  String " " (String (ascii_of_nat 226) (String (ascii_of_nat 134)
    (String (ascii_of_nat 146) " "))).

Section Z3Verifier.

(** [z3_string_val_error v] is the exception [z3.StringVal] raises on [v]
    (an item it cannot pass to [ord]); [int(v)] is Python's; [z3_check t asserts] is [solver.check()] (and [solver.model()]
    on [sat]) under timeout [t]; [format_1f x] is [f"{x:.1f}"]. *)
Variable z3_string_val_error : pyval -> pyexc.
Variable py_int : pyval -> exc Z.
Variable z3_check : Z -> list zexpr -> exc check_result.
Variable format_1f : Q -> string.

(** One item of the iteration in [z3.StringVal]: [ord(ch)] needs a
    one-character [str]. *)
Definition z3_string_char (ch : pyval) : exc string :=
  match ch with
  | PStr (String c EmptyString) => Ok (String c EmptyString)
  | _ => Raise (z3_string_val_error ch)
  end.

(** [z3.StringVal(v)] (z3py 4.12 and later) joins the characters it gets by
    iterating [v]: the characters of a [str], the items of a list or the
    keys of a dict, each a one-character [str]; a value that is not
    iterable raises. *)
Definition z3_string_val (v : pyval) : exc zexpr :=
  match v with
  | PStr s => Ok (ZStringVal s)
  | PList l =>
      let* cs := exc_map z3_string_char l in Ok (ZStringVal (String.concat "" cs))
  | PDict d =>
      let* cs := exc_map (fun kv => z3_string_char (PStr (fst kv))) d in
      Ok (ZStringVal (String.concat "" cs))
  | _ => Raise (z3_string_val_error v)
  end.

(** One pattern of [stringlike]. *)
Definition string_like_constraint (var : zexpr) (pattern : pyval) : exc zexpr :=
  let* star := py_in "*" pattern in
  let* wild := if star then Ok true else py_in "?" pattern in
  if wild then
    let* star' := py_in "*" pattern in
    let* prefix := if star' then py_split_first "*" pattern else Ok pattern in
    let* p := z3_string_val prefix in
    Ok (ZPrefixOf p var)
  else
    let* p := z3_string_val pattern in
    Ok (ZEq var p).

(** One CIDR of [ipaddress] / [notipaddress]. *)
Definition cidr_constraint (cidr : pyval) : exc zexpr :=
  let* slash := py_in "/" cidr in
  let* prefix := if slash then py_split_first "/" cidr else Ok cidr in
  let* p := z3_string_val prefix in
  Ok (ZPrefixOf p (ZString "source_ip")).

(** One pattern of [arnlike]. *)
Definition arn_constraint (var : zexpr) (arn_pattern : pyval) : exc zexpr :=
  let* star := py_in "*" arn_pattern in
  if star then
    let* prefix := py_split_first "*" arn_pattern in
    let* p := z3_string_val prefix in
    Ok (ZPrefixOf p var)
  else
    let* p := z3_string_val arn_pattern in
    Ok (ZEq var p).

(** [int(values[0]) if values else 0]. *)
Definition threshold_of (values : pyval) : exc Z :=
  if truthy values then let* v := py_index0 values in py_int v else Ok 0.

(** [PolicyToZ3Converter.condition_to_constraint]; [None] for an unknown
    operator, and for [ipaddress] / [notipaddress] on a key other than
    [aws:sourceip] (the branch falls off its end). *)
Definition condition_to_constraint (condition : pyval) : exc (option zexpr) :=
  let* op := py_get condition "operator" (PStr "") in
  let* operator := py_lower_val op in
  let* k := py_get condition "key" (PStr "") in
  let* key := py_lower_val k in
  let* values := py_get condition "values" (PList []) in
  let var := ZString key in
  if String.eqb operator "stringequals" then
    let* vs := py_iter values in
    let* cs := exc_map (fun v => let* s := z3_string_val v in Ok (ZEq var s)) vs in
    Ok (Some (z3_or_else cs false))
  else if String.eqb operator "stringlike" then
    let* vs := py_iter values in
    let* cs := exc_map (string_like_constraint var) vs in
    Ok (Some (z3_or_else cs false))
  else if String.eqb operator "ipaddress" then
    if String.eqb key "aws:sourceip" then
      let* vs := py_iter values in
      let* cs := exc_map cidr_constraint vs in
      Ok (Some (z3_or_else cs false))
    else Ok None
  else if String.eqb operator "stringnotequals" then
    let* vs := py_iter values in
    let* cs := exc_map (fun v => let* s := z3_string_val v in Ok (ZEq var s)) vs in
    Ok (Some (z3_not_or cs))
  else if String.eqb operator "notipaddress" then
    if String.eqb key "aws:sourceip" then
      let* vs := py_iter values in
      let* cs := exc_map cidr_constraint vs in
      Ok (Some (z3_not_or cs))
    else Ok None
  else if String.eqb operator "numericgreater" then
    let* t := threshold_of values in Ok (Some (ZGt (ZInt key) (ZIntVal t)))
  else if String.eqb operator "numericless" then
    let* t := threshold_of values in Ok (Some (ZLt (ZInt key) (ZIntVal t)))
  else if String.eqb operator "numericequals" then
    let* t := threshold_of values in Ok (Some (ZEq (ZInt key) (ZIntVal t)))
  else if String.eqb operator "arnlike" then
    let* vs := py_iter values in
    let* cs := exc_map (arn_constraint var) vs in
    Ok (Some (z3_or_else cs false))
  else if String.eqb operator "bool" then
    let* b := (if truthy values then
                 let* v := py_index0 values in
                 let* s := py_lower_val v in
                 Ok (String.eqb s "true" || String.eqb s "1")
               else Ok false) in
    Ok (Some (ZBoolVal b))
  else Ok None.

(** One iteration of the condition loop of [add_policy_constraints]: the
    statement's [constraint_list] and the converter. *)
Definition add_condition (acc : list zexpr * converter) (condition : pyval)
    : exc (list zexpr * converter) :=
  let* c := condition_to_constraint condition in
  match c with
  | Some e =>
      let* name := py_get condition "key" (PStr "unknown") in
      Ok ((fst acc ++ [e])%list, record_constraint (snd acc) name e)
  | None => Ok acc
  end.

(** One policy of [add_policy_constraints]. *)
Definition add_policy (conv : converter) (policy : pyval) : exc converter :=
  let* conditions := py_get policy "conditions" (PList []) in
  let* eff := py_get policy "effect" (PStr "Allow") in
  let* statement_effect := py_upper_val eff in
  let* cs := py_iter conditions in
  let* acc := exc_fold add_condition ([], conv) cs in
  let constraint_list := fst acc in
  let conv' := snd acc in
  let nonempty := match constraint_list with [] => false | _ => true end in
  if String.eqb statement_effect "ALLOW" && nonempty then
    Ok (solver_add conv' (ZAnd constraint_list))
  else if String.eqb statement_effect "DENY" && nonempty then
    Ok (solver_add conv' (ZNot (ZAnd constraint_list)))
  else Ok conv'.

Definition add_policy_constraints (conv : converter) (policies : pyval) : exc converter :=
  let* ps := py_iter policies in
  exc_fold add_policy conv ps.

(** The ([condition.get("key", "unknown")], term) pairs the condition loop of
    [add_policy_constraints] appends to [self.constraints], in order: one
    per condition whose [condition_to_constraint] is not [None] (on a run
    where no call raises). *)
Fixpoint recognised_conditions (cs : list pyval) : list (pyval * zexpr) :=
  match cs with
  | [] => []
  | c :: r =>
      match condition_to_constraint c, py_get c "key" (PStr "unknown") with
      | Ok (Some e), Ok name => (name, e) :: recognised_conditions r
      | _, _ => recognised_conditions r
      end
  end.

(** [add_execution_context]: a [str] value fixes a string variable, an
    [int] one (a [bool] included, which z3 casts to 0/1) an integer
    variable; other values are skipped. *)
Definition add_execution_context (conv : converter) (context : pyval) : exc converter :=
  match context with
  | PDict d =>
      Ok (fold_left
            (fun c kv =>
               match snd kv with
               | PStr s => solver_add c (ZEq (ZString (fst kv)) (ZStringVal s))
               | PInt z => solver_add c (ZEq (ZInt (fst kv)) (ZIntVal z))
               | PBool b => solver_add c (ZEq (ZInt (fst kv)) (ZIntVal (if b then 1 else 0)))
               | _ => c
               end) d conv)
  | _ => Raise (attribute_error context "items")
  end.

(** [verify_satisfiable]: [(True, model)], [(False, None)] or [(None, None)]. *)
Definition verify_satisfiable (conv : converter)
    : exc (option bool * option (list (string * string))) :=
  let* r := z3_check (conv_timeout conv) (conv_assertions conv) in
  Ok (match r with
      | Sat m => (Some true, Some m)
      | Unsat => (Some false, None)
      | Unknown => (None, None)
      end).

(** [Z3Verifier._model_to_dict]. *)
Definition _model_to_dict (m : list (string * string)) : list (string * string) :=
  fold_left (fun acc kv => dict_set acc (fst kv) (snd kv)) m [].

Definition try_except {A} (m : exc A) (handler : pyexc -> exc A) : exc A :=
  match m with Ok a => Ok a | Raise e => handler e end.

(** The [try] block of [verify_path_exploitability]; [elapsed_ms] is the
    time read after the solver call. *)
Definition verify_try (path : list string) (policies context : pyval)
    (elapsed_ms : Q) (conv0 : converter) : exc proof_result :=
  let* conv1 := add_policy_constraints conv0 policies in
  let* conv := add_execution_context conv1 context in
  let* sm := verify_satisfiable conv in
  let p := ConcreteLib.join arrow_sep path in
  let names := map fst (conv_constraints conv) in
  let n := length (conv_constraints conv) in
  match fst sm with
  | Some true =>
      Ok (mk_proof EXPLOITABLE path (Some true) n elapsed_ms
            (match snd sm with Some ((_ :: _) as m) => Some (_model_to_dict m) | _ => None end)
            None
            ("Path " ++ p ++ " is EXPLOITABLE under the given constraints. "
             ++ "Solver found satisfying assignment in " ++ format_1f elapsed_ms ++ "ms.")
            (Some names))
  | Some false =>
      Ok (mk_proof BLOCKED path (Some false) n elapsed_ms None
            (Some [("reason", PStr "All constraints unsatisfiable")])
            ("Path " ++ p ++ " is BLOCKED. "
             ++ "No satisfying assignment exists (UNSAT in " ++ format_1f elapsed_ms ++ "ms).")
            (Some names))
  | None =>
      Ok (mk_proof UNKNOWN path None n elapsed_ms None None
            ("Verification result UNKNOWN (solver returned unknown) for path " ++ p ++ ".")
            (Some names))
  end.

(** [Z3Verifier.verify_path_exploitability]. *)
Definition verify_path_exploitability (path : list string) (policies context : pyval)
    (timeout_ms : Z) (elapsed_ms : Q) : exc proof_result :=
  let converter := start_converter timeout_ms in
  try_except (verify_try path policies context elapsed_ms converter)
    (fun e => Ok (mk_proof UNKNOWN path None 0 elapsed_ms None None
                    ("Verification error: " ++ exc_msg e) None)).

End Z3Verifier.

(** The verdict of the [except] branch of [verify_path_exploitability]. *)
Definition verification_error_verdict (e : pyexc) (r : proof_result) : Prop :=
  pr_result r = UNKNOWN /\ pr_constraints_satisfied r = None /\
  pr_num_constraints r = 0%nat /\ pr_model r = None /\
  pr_explanation r = "Verification error: " ++ exc_msg e.

(** ** Example inputs *)

(** A firewall rule and an IAM policy for the same ordered pair
    [web -> db]; the policy's condition does not hold in [example_context]. *)
Definition example_rules : list pyval :=
  [PDict [("rule_name", PStr "web-to-db"); ("source", PStr "web");
          ("destination", PStr "db"); ("action", PStr "allow")]].

Definition example_policies : list pyval :=
  [PDict [("Effect", PStr "Allow"); ("Principal", PStr "web");
          ("Resource", PStr "db"); ("Action", PStr "rds:Connect");
          ("Condition", PDict [("StringEquals:source_ip", PStr "10.0.0.1")])]].

Definition example_context : list (string * pyval) :=
  [("source_ip", PStr "192.168.1.5")].

Definition example_deny_policy : pyval :=
  PDict [("effect", PStr "deny");
         ("conditions", PList [PDict [("operator", PStr "StringEquals");
                                      ("key", PStr "aws:username");
                                      ("values", PList [PStr "alice"])];
                               PDict [("operator", PStr "NoSuchOperator");
                                      ("key", PStr "aws:userid")]])].

Definition example_assets : list pyval :=
  [PDict [("id", PStr "web"); ("type", PStr "server")];
   PDict [("id", PStr "db"); ("type", PStr "database"); ("criticality", PStr "high")]].

(** * Proofs *)

(** ** Splitting condition keys *)

Lemma str_app_assoc (a b c : string) : (a ++ b) ++ c = a ++ (b ++ c).
Proof. induction a as [|x a IH]; simpl; [reflexivity | now rewrite IH]. Qed.

Lemma str_app_nil (a : string) : a ++ "" = a.
Proof. induction a as [|x a IH]; simpl; [reflexivity | now rewrite IH]. Qed.

Lemma count_char_app (c : ascii) (a b : string) :
  count_char c (a ++ b) = (count_char c a + count_char c b)%nat.
Proof. induction a as [|x a IH]; simpl; [reflexivity | rewrite IH; lia]. Qed.

Lemma split_aux_no_sep (sep : ascii) (s cur : string) :
  count_char sep s = O -> py_split_aux sep s cur = [cur ++ s].
Proof.
  revert cur; induction s as [|c r IH]; intros cur H; simpl in *.
  - now rewrite str_app_nil.
  - destruct (Ascii.eqb c sep); [discriminate|].
    rewrite IH by exact H. now rewrite str_app_assoc.
Qed.

Lemma split_aux_sep (sep : ascii) (s1 s2 cur : string) :
  count_char sep s1 = O ->
  py_split_aux sep (s1 ++ String sep s2) cur = (cur ++ s1) :: py_split_aux sep s2 "".
Proof.
  revert cur; induction s1 as [|c r IH]; intros cur H; simpl in *.
  - now rewrite Ascii.eqb_refl, str_app_nil.
  - destruct (Ascii.eqb c sep); [discriminate|].
    rewrite IH by exact H. now rewrite str_app_assoc.
Qed.

Lemma split_aux_length (sep : ascii) (s cur : string) :
  length (py_split_aux sep s cur) = S (count_char sep s).
Proof.
  revert cur; induction s as [|c r IH]; intros cur; simpl; [reflexivity|].
  destruct (Ascii.eqb c sep); simpl; rewrite IH; reflexivity.
Qed.

Lemma split_key_one_colon (op f : string) :
  count_char ":" op = O -> count_char ":" f = O ->
  py_split ":" (op ++ ":" ++ f) = [op; f].
Proof.
  intros Hop Hf. unfold py_split. simpl.
  rewrite split_aux_sep by exact Hop. rewrite split_aux_no_sep by exact Hf.
  reflexivity.
Qed.

Lemma split_key_bare (k : string) :
  count_char ":" k = O -> py_split ":" k = [k].
Proof. intros H. unfold py_split. now rewrite split_aux_no_sep. Qed.

Lemma match_long_list {A B} (l : list A) (f2 : A -> A -> B) (f1 : A -> B) (d : B) :
  (3 <= length l)%nat ->
  match l with [a; b] => f2 a b | [a] => f1 a | _ => d end = d.
Proof. intros H. destruct l as [|a [|b [|c r]]]; simpl in H; try lia; reflexivity. Qed.

Section EvaluatorFacts.
Context {L : PyLib}.

Lemma apply_operator_unsupported (operator : string) (cv pv : pyval) :
  ~ In operator supported_operators -> _apply_operator operator cv pv = Ok false.
Proof.
  intros H. unfold supported_operators in H. simpl in H.
  unfold _apply_operator.
  repeat match goal with
  | |- context [String.eqb operator ?x] =>
      destruct (String.eqb_spec operator x); [subst; exfalso; tauto|]
  end.
  reflexivity.
Qed.

Lemma evaluate_key_many_colons (context : list (string * pyval)) (key : string)
    (value : pyval) :
  (2 <= count_char ":" key)%nat -> _evaluate_condition_key context key value = false.
Proof.
  intros H. unfold _evaluate_condition_key.
  apply match_long_list. unfold py_split. rewrite split_aux_length. lia.
Qed.

End EvaluatorFacts.

(** ** Claims about the condition evaluator *)

(** C7: key parsing.  A key ["Operator:field"] (exactly one colon) applies
    [Operator] to the context value at [field]; a key without a colon is
    [StringEquals] on the context value at that key; a key with two or more
    colons evaluates false; and a key naming an operator outside the
    supported set evaluates false whatever the context and value. *)
Theorem condition_key_operator_resolution {L : PyLib}
    (context : list (string * pyval)) (value : pyval) :
  (forall operator field,
     count_char ":" operator = O -> count_char ":" field = O ->
     _evaluate_condition_key context (operator ++ ":" ++ field) value =
     catch_false (_apply_operator operator (dict_get_default context field PNone) value)) /\
  (forall key, count_char ":" key = O ->
     _evaluate_condition_key context key value =
     catch_false (_apply_operator "StringEquals" (dict_get_default context key PNone) value)) /\
  (forall key, (2 <= count_char ":" key)%nat ->
     _evaluate_condition_key context key value = false) /\
  (forall operator field, ~ In operator supported_operators ->
     _evaluate_condition_key context (operator ++ ":" ++ field) value = false).
Proof.
  split; [|split; [|split]].
  - intros operator field Hop Hf. unfold _evaluate_condition_key.
    now rewrite split_key_one_colon.
  - intros key Hk. unfold _evaluate_condition_key. now rewrite split_key_bare.
  - intros key Hk. now apply evaluate_key_many_colons.
  - intros operator field Hop.
    destruct (count_char ":" operator) eqn:Ho; [destruct (count_char ":" field) eqn:Hf|].
    + unfold _evaluate_condition_key. rewrite split_key_one_colon by assumption.
      now rewrite apply_operator_unsupported.
    + apply evaluate_key_many_colons. rewrite !count_char_app. simpl. lia.
    + apply evaluate_key_many_colons. rewrite !count_char_app. simpl. lia.
Qed.

(** C4 (as the code does it): [is_satisfied] is true for a falsy condition
    ([None], the empty mapping, and likewise [""], [0], [False], [[]]); false
    for a truthy value that is not a mapping; and for a non-empty mapping
    true exactly when every key holds. *)
Theorem is_satisfied_falsy_or_all_keys {L : PyLib} (context : list (string * pyval)) :
  is_satisfied context PNone = true /\
  is_satisfied context (PDict []) = true /\
  (forall condition, truthy condition = false -> is_satisfied context condition = true) /\
  (forall condition, truthy condition = true -> (forall items, condition <> PDict items) ->
     is_satisfied context condition = false) /\
  (forall items, items <> [] ->
     (is_satisfied context (PDict items) = true <->
      Forall (fun kv => _evaluate_condition_key context (fst kv) (snd kv) = true) items)).
Proof.
  split; [reflexivity|]. split; [reflexivity|]. split; [|split].
  - intros condition H. unfold is_satisfied. now rewrite H.
  - intros condition H Hnd. unfold is_satisfied. rewrite H. simpl.
    destruct condition; try reflexivity. exfalso. now apply (Hnd l).
  - intros items Hne. unfold is_satisfied.
    destruct items as [|kv items]; [contradiction|]. simpl negb. cbv iota.
    rewrite forallb_forall, Forall_forall. reflexivity.
Qed.

(** C4 fails as stated: the empty string is not a mapping, yet
    [is_satisfied] returns true for it (it is falsy). *)
Lemma is_satisfied_empty_string_condition :
  (forall items, PStr "" <> PDict items) /\
  is_satisfied (L := py_lib) [] (PStr "") = true.
Proof. split; [discriminate | reflexivity]. Qed.

(** C2 (as the code does it): [NotIpAddress] is the negation of
    [IpAddress]; when the context value is missing or does not parse as an
    address, or no policy value parses, the key evaluates true. *)
Theorem not_ip_address_negates_ip_match {L : PyLib}
    (context : list (string * pyval)) (field : string) (value : pyval)
    (Hfield : count_char ":" field = O) :
  _evaluate_condition_key context ("NotIpAddress:" ++ field) value =
    negb (_evaluate_condition_key context ("IpAddress:" ++ field) value) /\
  (dict_get_default context field PNone = PNone \/
   ip_address (py_str (dict_get_default context field PNone)) = None \/
   Forall (fun v => ip_value_parses v = false) (as_values value) ->
   _evaluate_condition_key context ("NotIpAddress:" ++ field) value = true).
Proof.
  unfold _evaluate_condition_key.
  change ("NotIpAddress:" ++ field) with ("NotIpAddress" ++ ":" ++ field).
  change ("IpAddress:" ++ field) with ("IpAddress" ++ ":" ++ field).
  rewrite !split_key_one_colon by (reflexivity || assumption).
  simpl catch_false.
  split; [reflexivity|].
  set (cv := dict_get_default context field PNone).
  intros [Hnone | [Hparse | Hall]].
  - now rewrite Hnone.
  - unfold _ip_address_match. destruct cv; try reflexivity; now rewrite Hparse.
  - unfold _ip_address_match.
    destruct cv; try reflexivity;
    (destruct (ip_address _) as [a|]; [|reflexivity]);
    (rewrite Forall_forall in Hall;
     destruct (existsb (ip_value_matches a) (as_values value)) eqn:E; [|reflexivity];
     apply existsb_exists in E; destruct E as [v [Hin Hm]];
     specialize (Hall v Hin); unfold ip_value_parses, ip_value_matches in *;
     destruct (str_contains _ _); [destruct (ip_network _) | destruct (ip_address _)];
     discriminate).
Qed.

Lemma not_ip_address_negates_ip_match_witness :
  count_char ":" "source_ip" = O /\
  _evaluate_condition_key (L := py_lib) [("source_ip", PStr "not-an-ip")]
    "NotIpAddress:source_ip" (PStr "10.0.0.0/8") = true.
Proof.
  split; [reflexivity|].
  apply (not_ip_address_negates_ip_match (L := py_lib) _ "source_ip" _ eq_refl).
  right; left. reflexivity.
Defined.

(** C2 fails as stated: a context value that does not parse as an IP
    address, or a policy value that does not parse, makes [NotIpAddress]
    true, not false. *)
Lemma not_ip_address_true_on_parse_error :
  ConcreteLib.ipv4 "not-an-ip" = None /\
  _evaluate_condition_key (L := py_lib) [("source_ip", PStr "not-an-ip")]
    "NotIpAddress:source_ip" (PStr "10.0.0.0/8") = true /\
  ConcreteLib.ipv4 "garbage" = None /\
  _evaluate_condition_key (L := py_lib) [("source_ip", PStr "10.0.0.1")]
    "NotIpAddress:source_ip" (PStr "garbage") = true.
Proof. repeat split; reflexivity. Qed.

(** ** The graph and the path analyzer *)

Lemma key_eqb_refl (k : hkey) : key_eqb k k = true.
Proof.
  destruct k; simpl;
  [reflexivity | apply Bool.eqb_reflx | apply Z.eqb_refl | apply String.eqb_refl].
Qed.

Lemma kget_kset_same {A} (d : list (hkey * A)) (k : hkey) (v : A) :
  kget (kset d k v) k = Some v.
Proof.
  induction d as [|[k' v'] r IH]; simpl.
  - now rewrite key_eqb_refl.
  - destruct (key_eqb k k') eqn:E; simpl; rewrite ?E; [reflexivity | exact IH].
Qed.

Lemma kget_app {A} (l m : list (hkey * A)) (k : hkey) :
  kget (l ++ m) k = match kget l k with Some x => Some x | None => kget m k end.
Proof.
  induction l as [|[k' v'] r IH]; simpl; [reflexivity|].
  destruct (key_eqb k k'); [reflexivity | exact IH].
Qed.

Lemma ensure_node_edge_data (g g' : digraph) (n u v : hkey) :
  ensure_node g n = Ok g' -> get_edge_data g' u v = get_edge_data g u v.
Proof.
  unfold ensure_node. destruct (kmem (g_succ g) n).
  - now intros [= <-].
  - intros H. destruct n; try discriminate H; injection H as <-;
    unfold get_edge_data; simpl; rewrite kget_app;
    (destruct (kget (g_succ g) u); [reflexivity|]);
    simpl; destruct (key_eqb u _); reflexivity.
Qed.

Lemma add_edge_edge_data (g g' : digraph) (u v : hkey) (attr : attrs) :
  add_edge g u v attr = Ok g' ->
  get_edge_data g' u v =
    Some (dict_update (match get_edge_data g u v with Some d => d | None => [] end) attr).
Proof.
  unfold add_edge.
  destruct (ensure_node g u) as [g1|e] eqn:E1; [|discriminate]. simpl.
  destruct (ensure_node g1 v) as [g2|e] eqn:E2; [|discriminate]. simpl.
  intros [= <-].
  rewrite <- (ensure_node_edge_data g g1 u u v E1).
  rewrite <- (ensure_node_edge_data g1 g2 v u v E2).
  unfold get_edge_data at 1. simpl. rewrite !kget_kset_same.
  unfold get_edge_data. destruct (kget (g_succ g2) u); reflexivity.
Qed.

(** C1 (as the code does it): a [DiGraph] keeps one edge per ordered pair;
    adding another edge for the same pair (the IAM edge of a policy after
    the network edge of a firewall rule) updates the data dict of the
    existing edge.  A step of a path is valid iff that edge exists and,
    when its type is iam, its condition is satisfied. *)
Theorem single_edge_per_pair_and_step_rule {L : PyLib} :
  (forall g u v attr,
     match add_edge g u v attr with
     | Ok g' => get_edge_data g' u v =
                  Some (dict_update (match get_edge_data g u v with
                                     | Some d => d | None => [] end) attr)
     | Raise _ => True
     end) /\
  (forall a path,
     _is_path_valid a path = true <->
     Forall (fun st => exists d,
               get_edge_data (an_graph a) (fst st) (snd st) = Some d /\
               (edge_type_is d "iam" = true ->
                is_satisfied (an_context a) (dict_get_default d "condition" PNone) = true))
            (steps path)).
Proof.
  split.
  - intros g u v attr. destruct (add_edge g u v attr) eqn:E; [|exact I].
    now apply add_edge_edge_data.
  - intros a path. unfold _is_path_valid. rewrite forallb_forall, Forall_forall.
    split.
    + intros H st Hin. specialize (H st Hin).
      destruct (get_edge_data _ _ _) as [d|]; [|discriminate].
      exists d. split; [reflexivity|].
      intros Hi. now rewrite Hi in H.
    + intros H st Hin. destruct (H st Hin) as [d [Hd Hc]]. rewrite Hd.
      destruct (edge_type_is d "iam"); [now apply Hc | reflexivity].
Qed.

(** C1 fails as stated: with a firewall rule and an IAM policy for the same
    pair [web -> db], the graph holds a single edge [web -> db], now of type
    iam; the step is rejected under a context that fails the policy's
    condition, although the network edge alone would let it through. *)
Lemma network_and_iam_edge_merged :
  match build_graph [] example_rules example_policies,
        build_graph [] example_rules [] with
  | Ok g, Ok g_net =>
      length (match kget (g_succ g) (KStr "web") with Some m => m | None => [] end) = 1%nat /\
      _is_path_valid (L := py_lib) (new_analyzer g example_context 5)
        [KStr "web"; KStr "db"] = false /\
      _is_path_valid (L := py_lib) (new_analyzer g_net example_context 5)
        [KStr "web"; KStr "db"] = true
  | _, _ => False
  end.
Proof. vm_compute. repeat split. Qed.

Lemma cache_key_eqb_refl (k : cache_key) : cache_key_eqb k k = true.
Proof. destruct k. unfold cache_key_eqb. simpl. now rewrite !key_eqb_refl. Qed.

Lemma cache_get_set_same (c : list (cache_key * list (list hkey))) k v :
  cache_get (cache_set c k v) k = Some v.
Proof.
  induction c as [|[k' v'] r IH]; simpl.
  - now rewrite cache_key_eqb_refl.
  - destruct (cache_key_eqb k k') eqn:E; simpl; rewrite ?E; [reflexivity | exact IH].
Qed.

(** C8: two consecutive [find_attack_paths(source, target, use_cache=True)]
    calls on an unchanged analyzer give the same outcome, and the second call
    changes nothing in the analyzer, in particular neither [paths_pruned]
    nor [total_paths_found]. *)
Theorem find_attack_paths_cache_idempotent {L : PyLib} (a : analyzer)
    (source target : hkey) (elapsed1 elapsed2 : Q) :
  let (r1, a1) := find_attack_paths a source target true elapsed1 in
  let (r2, a2) := find_attack_paths a1 source target true elapsed2 in
  r2 = r1 /\ a2 = a1 /\
  an_paths_pruned a2 = an_paths_pruned a1 /\
  an_total_paths_found a2 = an_total_paths_found a1.
Proof.
  unfold find_attack_paths.
  destruct (cache_get (an_path_cache a) (source, target)) as [cached|] eqn:Hc.
  - rewrite Hc. repeat split.
  - destruct (negb (has_node (an_graph a) source)) eqn:Hs.
    + rewrite Hc, Hs. repeat split.
    + destruct (negb (has_node (an_graph a) target)) eqn:Ht.
      * rewrite Hc, Hs, Ht. repeat split.
      * simpl. rewrite cache_get_set_same. repeat split.
Qed.

(** C9 (as the code does it): a call answered from the cache (with
    [use_cache] and an entry for (source, target)) returns the cached list
    and leaves the analyzer unchanged, without the node checks, whether or
    not the graph still holds the nodes.  When the call is not answered from
    the cache, an absent source raises [ValueError("Source node ... not found
    in graph")], else an absent target raises [ValueError("Target node
    ...")], both before any enumeration and leaving the analyzer unchanged;
    present source and target give a list of paths. *)
Theorem find_attack_paths_node_checks {L : PyLib} (a : analyzer)
    (source target : hkey) (use_cache : bool) (elapsed : Q) :
  (forall cached, use_cache = true ->
   cache_get (an_path_cache a) (source, target) = Some cached ->
   find_attack_paths a source target use_cache elapsed = (Ok cached, a)) /\
  ((if use_cache then cache_get (an_path_cache a) (source, target) else None) = None ->
   (has_node (an_graph a) source = false ->
    find_attack_paths a source target use_cache elapsed =
      (Raise (node_not_found "Source" source), a)) /\
   (has_node (an_graph a) source = true -> has_node (an_graph a) target = false ->
    find_attack_paths a source target use_cache elapsed =
      (Raise (node_not_found "Target" target), a)) /\
   (has_node (an_graph a) source = true -> has_node (an_graph a) target = true ->
    exists paths, fst (find_attack_paths a source target use_cache elapsed) = Ok paths)).
Proof.
  split.
  - intros cached -> Hc. unfold find_attack_paths. now rewrite Hc.
  - intros Hmiss. unfold find_attack_paths. rewrite Hmiss.
    split; [|split].
    + intros Hs. now rewrite Hs.
    + intros Hs Ht. now rewrite Hs, Ht.
    + intros Hs Ht. rewrite Hs, Ht. simpl. eexists. reflexivity.
Qed.

Lemma find_attack_paths_node_checks_witness :
  (if true then cache_get (an_path_cache (new_analyzer empty_digraph [] 5))
                  (KStr "web", KStr "db") else None) = None /\
  find_attack_paths (L := py_lib) (new_analyzer empty_digraph [] 5)
    (KStr "web") (KStr "db") true 0 =
    (Raise (node_not_found "Source" (KStr "web")), new_analyzer empty_digraph [] 5) /\
  match build_graph [] example_rules [] with
  | Ok g =>
      let a1 := snd (find_attack_paths (L := py_lib) (new_analyzer g example_context 5)
                       (KStr "web") (KStr "db") true 0) in
      cache_get (an_path_cache a1) (KStr "web", KStr "db") = Some [[KStr "web"; KStr "db"]] /\
      find_attack_paths (L := py_lib) a1 (KStr "web") (KStr "db") true 0 =
        (Ok [[KStr "web"; KStr "db"]], a1)
  | Raise _ => False
  end.
Proof.
  split; [reflexivity|]. split.
  - apply (proj2 (find_attack_paths_node_checks (L := py_lib)
           (new_analyzer empty_digraph [] 5) (KStr "web") (KStr "db") true 0) eq_refl).
    reflexivity.
  - destruct (build_graph [] example_rules []) as [g|e] eqn:Hg;
      [|vm_compute in Hg; discriminate].
    vm_compute in Hg. injection Hg as <-. cbv zeta.
    split; [vm_compute; reflexivity|].
    apply (proj1 (find_attack_paths_node_checks (L := py_lib) _ (KStr "web") (KStr "db")
                    true 0)); [reflexivity | vm_compute; reflexivity].
Defined.

(** C9 fails as stated: the cache is consulted first.  After a call cached
    [web -> db] and the caller removed [web] from the graph object the
    analyzer holds, the same call returns the cached paths instead of
    failing for the absent source (without the cache it does fail). *)
Lemma stale_cache_skips_source_check :
  match build_graph [] example_rules [] with
  | Ok g =>
      let a0 := new_analyzer g example_context 5 in
      let a1 := snd (find_attack_paths (L := py_lib) a0 (KStr "web") (KStr "db") true 0) in
      let a2 := with_graph a1 (remove_node g (KStr "web")) in
      has_node (an_graph a2) (KStr "web") = false /\
      fst (find_attack_paths (L := py_lib) a2 (KStr "web") (KStr "db") true 0) =
        Ok [[KStr "web"; KStr "db"]] /\
      fst (find_attack_paths (L := py_lib) a2 (KStr "web") (KStr "db") false 0) =
        Raise (node_not_found "Source" (KStr "web"))
  | Raise _ => False
  end.
Proof. vm_compute. repeat split. Qed.

Lemma steps_short {A} (p : list A) : (length p < 2)%nat -> steps p = [].
Proof. destruct p as [|x [|y r]]; simpl; intros H; [reflexivity | reflexivity | lia]. Qed.

Lemma score_fold_ok (g : digraph) (l : list (hkey * hkey)) :
  forall c, (exists r, exc_fold (score_step g) c l = Ok r) <->
            Forall (fun st => has_edge g st = true) l.
Proof.
  induction l as [|st l IH]; intros c; simpl.
  - split; [constructor | intros _; exists c; reflexivity].
  - rewrite Forall_cons_iff. unfold score_step at 1, has_edge at 1.
    destruct (get_edge_data g (fst st) (snd st)) as [d|].
    + destruct (edge_type_is d "iam");
        [destruct (truthy (dict_get_default d "condition" PNone))
        | destruct (edge_type_is d "network")];
        simpl; rewrite IH; tauto.
    + simpl. split; [intros [r Hr]; discriminate | intros [H _]; discriminate].
Qed.

Lemma score_fold_raise (g : digraph) (l : list (hkey * hkey)) :
  forall c, Exists (fun st => has_edge g st = false) l ->
            exc_fold (score_step g) c l = Raise (attribute_error PNone "get").
Proof.
  induction l as [|st l IH]; intros c H; [inversion H|].
  simpl. unfold score_step at 1. apply Exists_cons in H.
  unfold has_edge in H.
  destruct (get_edge_data g (fst st) (snd st)) as [d|]; [|reflexivity].
  destruct H as [H|H]; [discriminate|].
  destruct (edge_type_is d "iam");
    [destruct (truthy (dict_get_default d "condition" PNone))
    | destruct (edge_type_is d "network")];
    simpl; now apply IH.
Qed.

Lemma score_fold_counts (g : digraph) (l : list (hkey * hkey)) :
  forall c, Forall (fun st => has_edge g st = true) l ->
  exists r, exc_fold (score_step g) c l = Ok r /\
    iam_count r = iam_count c + Z.of_nat (length (filter (iam_step g) l)) /\
    conditions_bypassed r =
      conditions_bypassed c + Z.of_nat (length (filter (iam_condition_step g) l)).
Proof.
  induction l as [|st l IH]; intros c H.
  - exists c. simpl. split; [reflexivity | lia].
  - inversion H as [|? ? Hst Hl]; subst.
    simpl. unfold score_step at 1, iam_step at 1, iam_condition_step at 1.
    unfold has_edge in Hst.
    destruct (get_edge_data g (fst st) (snd st)) as [d|]; [|discriminate].
    destruct (edge_type_is d "iam");
      [destruct (truthy (dict_get_default d "condition" PNone))
      | destruct (edge_type_is d "network")];
      simpl; match goal with
             | |- exists r, exc_fold _ ?c' _ = _ /\ _ =>
                 destruct (IH c' Hl) as [r [Hr [Hi Hc]]]
             end; exists r;
      (split; [exact Hr|]); rewrite Hi, Hc; simpl;
      rewrite ?Nat2Z.inj_succ; lia.
Qed.

Section ExplainFacts.
Context {L : PyLib}.

Lemma explain_steps_length (a : analyzer) (l : list (hkey * hkey)) :
  forall i, length (explain_steps a i l) = length (filter (explained_step (an_graph a)) l).
Proof.
  induction l as [|[src dst] l IH]; intros i; simpl; [reflexivity|].
  rewrite length_app, IH. unfold explain_step, explained_step. simpl.
  destruct (get_edge_data (an_graph a) src dst) as [d|]; [|reflexivity].
  destruct (edge_type_is d "network"); [reflexivity|].
  destruct (edge_type_is d "iam"); reflexivity.
Qed.

End ExplainFacts.

(** C10: [score_path] returns a score exactly when every step of the path
    has an edge; a step without one makes it raise [AttributeError]
    ([None.get]), while [explain_path] writes one line per step whose edge
    is a network or iam edge and silently skips steps without an edge. *)
Theorem score_path_faults_on_missing_edge {L : PyLib} (a : analyzer)
    (path : list hkey) :
  ((exists score, score_path a path = Ok score) <->
   Forall (fun st => has_edge (an_graph a) st = true) (steps path)) /\
  (Exists (fun st => has_edge (an_graph a) st = false) (steps path) ->
   score_path a path = Raise (attribute_error PNone "get")) /\
  length (explain_path a path) =
    length (filter (explained_step (an_graph a)) (steps path)).
Proof.
  unfold score_path, explain_path.
  destruct (Nat.ltb (length path) 2) eqn:Hl.
  - apply Nat.ltb_lt in Hl. rewrite (steps_short path Hl). simpl.
    split; [|split].
    + split; [constructor | intros _; eexists; reflexivity].
    + intros H; inversion H.
    + reflexivity.
  - split; [|split].
    + rewrite <- (score_fold_ok (an_graph a) (steps path) (mk_counts 0 0 0 0)).
      split; intros [r Hr].
      * destruct (exc_fold _ _ _) as [c|e]; [eexists; reflexivity | discriminate].
      * rewrite Hr. simpl. eexists. reflexivity.
    + intros H. now rewrite score_fold_raise.
    + apply explain_steps_length.
Qed.

Lemma criticality_bonus_range (x : pyval) :
  0 <= criticality_bonus x <= 40.
Proof.
  unfold criticality_bonus. destruct x; try lia.
  repeat match goal with |- context [match ?y with _ => _ end] => destruct y end;
  lia.
Qed.

(** C5 (amended): when every step of the path has an edge in the graph,
    [score_path] returns a score in [0,100]: 0 for a path of fewer than two
    nodes, otherwise
    min(100, 10 + max(0, 25 - 3(n-2)) + criticality bonus of the last node
    + 5 per iam step + 3 per iam step with a non-empty condition). *)
Theorem score_path_formula_with_edges (a : analyzer) (path : list hkey)
    (Hedges : Forall (fun st => has_edge (an_graph a) st = true) (steps path)) :
  exists score, score_path a path = Ok score /\ 0 <= score <= 100 /\
    ((length path < 2)%nat -> score = 0) /\
    ((2 <= length path)%nat ->
     score = Z.min 100
       (10 + Z.max 0 (25 - (Z.of_nat (length path) - 2) * 3)
        + criticality_bonus
            (dict_get_default (node_data (an_graph a) (last path KNone))
               "criticality" (PStr "normal"))
        + 5 * Z.of_nat (length (filter (iam_step (an_graph a)) (steps path)))
        + 3 * Z.of_nat (length (filter (iam_condition_step (an_graph a)) (steps path))))).
Proof.
  unfold score_path.
  destruct (Nat.ltb (length path) 2) eqn:Hl.
  - apply Nat.ltb_lt in Hl. exists 0. repeat split; intros; lia.
  - apply Nat.ltb_ge in Hl.
    destruct (score_fold_counts (an_graph a) (steps path) (mk_counts 0 0 0 0) Hedges)
      as [r [Hr [Hi Hc]]].
    rewrite Hr. simpl in Hi, Hc. cbv zeta. cbn [exc_bind].
    eexists. split; [reflexivity|].
    rewrite Hi, Hc.
    pose proof (criticality_bonus_range
      (dict_get_default (node_data (an_graph a) (last path KNone))
         "criticality" (PStr "normal"))).
    repeat split; intros; lia.
Qed.

Lemma score_path_formula_with_edges_witness :
  match build_graph [] example_rules example_policies with
  | Ok g =>
      Forall (fun st => has_edge g st = true) (steps [KStr "web"; KStr "db"]) /\
      exists score,
        score_path (new_analyzer g example_context 5) [KStr "web"; KStr "db"] = Ok score /\
        0 <= score <= 100 /\
        ((length [KStr "web"; KStr "db"] < 2)%nat -> score = 0) /\
        ((2 <= length [KStr "web"; KStr "db"])%nat ->
         score = Z.min 100
           (10 + Z.max 0 (25 - (Z.of_nat (length [KStr "web"; KStr "db"]) - 2) * 3)
            + criticality_bonus
                (dict_get_default (node_data g (last [KStr "web"; KStr "db"] KNone))
                   "criticality" (PStr "normal"))
            + 5 * Z.of_nat (length (filter (iam_step g) (steps [KStr "web"; KStr "db"])))
            + 3 * Z.of_nat (length (filter (iam_condition_step g)
                                      (steps [KStr "web"; KStr "db"])))))
  | Raise _ => False
  end.
Proof.
  destruct (build_graph [] example_rules example_policies) as [g|e] eqn:Hg;
    [|vm_compute in Hg; discriminate].
  assert (Hedges : Forall (fun st => has_edge g st = true) (steps [KStr "web"; KStr "db"])).
  { vm_compute in Hg. injection Hg as <-. repeat constructor. }
  split; [exact Hedges|].
  exact (score_path_formula_with_edges (new_analyzer g example_context 5)
           [KStr "web"; KStr "db"] Hedges).
Defined.

(** Counterexample to C5 as stated ("for every path"): on the graph of the
    single network rule web -> db, the path [db; web] has no edge, and
    [score_path] raises [AttributeError] instead of returning a score. *)
Lemma score_path_missing_edge_raises :
  match build_graph [] example_rules [] with
  | Ok g =>
      score_path (new_analyzer g [] 5) [KStr "db"; KStr "web"]
        = Raise (attribute_error PNone "get")
  | Raise _ => False
  end.
Proof. vm_compute. reflexivity. Qed.

Lemma qle_bool_false (x y : Q) : Qle_bool x y = false -> ~ (x <= y)%Q.
Proof. intros E H. apply Qle_bool_iff in H. congruence. Qed.

#[local] Instance py_max_proper : Proper (Qeq ==> Qeq ==> Qeq) py_max.
Proof.
  intros a a' Ha b b' Hb. unfold py_max.
  destruct (Qle_bool b a) eqn:E1, (Qle_bool b' a') eqn:E2; auto.
  - apply Qle_bool_iff in E1. apply qle_bool_false in E2.
    exfalso. apply E2. rewrite <- Ha, <- Hb. exact E1.
  - apply Qle_bool_iff in E2. apply qle_bool_false in E1.
    exfalso. apply E1. rewrite Ha, Hb. exact E2.
Qed.

#[local] Instance py_min_proper : Proper (Qeq ==> Qeq ==> Qeq) py_min.
Proof.
  intros a a' Ha b b' Hb. unfold py_min.
  destruct (Qle_bool a b) eqn:E1, (Qle_bool a' b') eqn:E2; auto.
  - apply Qle_bool_iff in E1. apply qle_bool_false in E2.
    exfalso. apply E2. rewrite <- Ha, <- Hb. exact E1.
  - apply Qle_bool_iff in E2. apply qle_bool_false in E1.
    exfalso. apply E1. rewrite Ha, Hb. exact E2.
Qed.

Lemma hop_deduction (k : Z) :
  (py_max 0 (inject_Z k * (1#2)) == (1#2) * inject_Z (Z.max 0 k))%Q.
Proof.
  unfold py_max. destruct (Qle_bool (inject_Z k * (1#2)) 0) eqn:E.
  - apply Qle_bool_iff in E. unfold Qle in E. simpl in E.
    rewrite Z.max_l by lia. reflexivity.
  - apply qle_bool_false in E. unfold Qle in E. simpl in E.
    rewrite Z.max_r by lia. ring.
Qed.

(** C6 (amended): the exploitability component is 0 for a non-exploitable
    path; otherwise it is min(10, max(3.5, 6.0 - 0.5 * max(0, len(path) - 1))
    + 1.5 with an authentication bypass + 1.0 with a privilege escalation):
    0.5 is taken off for every node after the first, that is for every hop
    of the path, the first one included. *)
Theorem exploitability_score_formula (path : list string)
    (is_exploitable has_authentication_bypass has_privilege_escalation : bool) :
  exploitability_score path is_exploitable has_authentication_bypass
    has_privilege_escalation ==
  (if is_exploitable then
     py_min 10
       (py_max (7#2) (6 - (1#2) * inject_Z (Z.max 0 (Z.of_nat (length path) - 1)))
        + (if has_authentication_bypass then 3#2 else 0)
        + (if has_privilege_escalation then 1 else 0))
   else 0)%Q.
Proof.
  unfold exploitability_score, _calculate_exploitability.
  destruct is_exploitable; cbv beta iota zeta delta [negb]; [|reflexivity].
  destruct has_authentication_bypass, has_privilege_escalation;
    cbv beta iota; rewrite hop_deduction, ?Qplus_0_r; reflexivity.
Qed.

(** Counterexample to C6 as stated: an exploitable two-node path with no
    flags scores 5.5, not 6.0. *)
Lemma exploitability_two_node_path :
  Qeq_bool (exploitability_score ["web"; "db"] true false false) (11#2) = true /\
  Qeq_bool (exploitability_score ["web"; "db"] true false false) 6%Q = false.
Proof. vm_compute. split; reflexivity. Qed.

Lemma exc_fold_preserves {A B} (P : A -> Prop) (f : A -> B -> exc A)
    (Hf : forall a b a', f a b = Ok a' -> P a -> P a') :
  forall l a a', exc_fold f a l = Ok a' -> P a -> P a'.
Proof.
  induction l as [|b l IH]; intros a a' H Ha; simpl in H.
  - injection H as <-. exact Ha.
  - destruct (f a b) as [a1|e] eqn:E; [|discriminate].
    exact (IH a1 a' H (Hf a b a1 E Ha)).
Qed.

Section Z3VerifierFacts.
Variable z3_string_val_error : pyval -> pyexc.
Variable py_int : pyval -> exc Z.
Variable z3_check : Z -> list zexpr -> exc check_result.
Variable format_1f : Q -> string.

Lemma add_condition_timeout acc c acc' :
  add_condition z3_string_val_error py_int acc c = Ok acc' ->
  conv_timeout (snd acc') = conv_timeout (snd acc).
Proof.
  unfold add_condition.
  destruct (condition_to_constraint z3_string_val_error py_int c) as [[e|]|x];
    simpl; [|intros H; injection H as <-; reflexivity | discriminate].
  destruct (py_get c "key" (PStr "unknown")) as [name|x]; simpl; [|discriminate].
  intros H. injection H as <-. reflexivity.
Qed.

Lemma add_policy_timeout conv policy conv' :
  add_policy z3_string_val_error py_int conv policy = Ok conv' ->
  conv_timeout conv' = conv_timeout conv.
Proof.
  unfold add_policy.
  destruct (py_get policy "conditions" (PList [])) as [cs|x]; simpl; [|discriminate].
  destruct (py_get policy "effect" (PStr "Allow")) as [eff|x]; simpl; [|discriminate].
  destruct (py_upper_val eff) as [se|x]; simpl; [|discriminate].
  destruct (py_iter cs) as [l|x]; simpl; [|discriminate].
  destruct (exc_fold (add_condition z3_string_val_error py_int) ([], conv) l)
    as [acc|x] eqn:E; simpl; [|discriminate].
  assert (Ht : conv_timeout (snd acc) = conv_timeout conv).
  { apply (exc_fold_preserves (fun a => conv_timeout (snd a) = conv_timeout conv)
             _ (fun a b a' H Ha => eq_trans (add_condition_timeout a b a' H) Ha)
             l ([], conv) acc E eq_refl). }
  destruct (String.eqb se "ALLOW" && _); [intros H; injection H as <-; exact Ht|].
  destruct (String.eqb se "DENY" && _); intros H; injection H as <-; exact Ht.
Qed.

Lemma add_policy_constraints_timeout conv policies conv' :
  add_policy_constraints z3_string_val_error py_int conv policies = Ok conv' ->
  conv_timeout conv' = conv_timeout conv.
Proof.
  unfold add_policy_constraints.
  destruct (py_iter policies) as [ps|x]; simpl; [|discriminate].
  intros H.
  exact (exc_fold_preserves (fun c => conv_timeout c = conv_timeout conv) _
           (fun a b a' H Ha => eq_trans (add_policy_timeout a b a' H) Ha)
           ps conv conv' H eq_refl).
Qed.

Lemma add_execution_context_timeout conv context conv' :
  add_execution_context conv context = Ok conv' ->
  conv_timeout conv' = conv_timeout conv.
Proof.
  unfold add_execution_context. destruct context; try discriminate.
  intros H. injection H as <-.
  revert conv. induction l as [|[k v] l IH]; intros conv; simpl; [reflexivity|].
  rewrite IH. destruct v; reflexivity.
Qed.

(** C3: [verify_path_exploitability] never raises, whatever the path, the
    policies, the context, the timeout and the solver's answer: it returns a
    [ProofResult] for the path, timed with the elapsed time.  With the
    constraints built from the policies and the context and the solver run
    under the given timeout: [sat] gives EXPLOITABLE with the model as a dict
    ([None] when the model is empty), the constraint count and the
    constraint names; [unsat] gives BLOCKED with no model; [unknown] gives
    UNKNOWN; an exception while building the constraints (a malformed
    policy or context) or inside the solver gives UNKNOWN with 0
    constraints and the explanation "Verification error: " followed by the
    exception's message. *)
Theorem verify_path_exploitability_never_raises (path : list string)
    (policies context : pyval) (timeout_ms : Z) (elapsed_ms : Q) :
  exists r,
    verify_path_exploitability z3_string_val_error py_int z3_check format_1f
      path policies context timeout_ms elapsed_ms = Ok r /\
    pr_path r = path /\ pr_solver_time_ms r = elapsed_ms /\
    match (let* conv := add_policy_constraints z3_string_val_error py_int
                          (start_converter timeout_ms) policies in
           add_execution_context conv context) with
    | Raise e => verification_error_verdict e r
    | Ok conv =>
        match z3_check timeout_ms (conv_assertions conv) with
        | Raise e => verification_error_verdict e r
        | Ok (Sat m) =>
            pr_result r = EXPLOITABLE /\ pr_constraints_satisfied r = Some true /\
            pr_model r = (match m with [] => None | _ => Some (_model_to_dict m) end) /\
            pr_num_constraints r = length (conv_constraints conv) /\
            pr_constraints_used r = Some (map fst (conv_constraints conv))
        | Ok Unsat =>
            pr_result r = BLOCKED /\ pr_constraints_satisfied r = Some false /\
            pr_model r = None /\
            pr_num_constraints r = length (conv_constraints conv) /\
            pr_constraints_used r = Some (map fst (conv_constraints conv))
        | Ok Unknown =>
            pr_result r = UNKNOWN /\ pr_constraints_satisfied r = None /\
            pr_model r = None /\
            pr_num_constraints r = length (conv_constraints conv) /\
            pr_constraints_used r = Some (map fst (conv_constraints conv))
        end
    end.
Proof.
  unfold verify_path_exploitability, try_except, verify_try, verification_error_verdict.
  destruct (add_policy_constraints z3_string_val_error py_int (start_converter timeout_ms)
              policies) as [c1|e] eqn:E1; simpl;
    [|eexists; repeat split; reflexivity].
  destruct (add_execution_context c1 context) as [conv|e] eqn:E2; simpl;
    [|eexists; repeat split; reflexivity].
  assert (Ht : conv_timeout conv = timeout_ms).
  { rewrite (add_execution_context_timeout _ _ _ E2).
    exact (add_policy_constraints_timeout _ _ _ E1). }
  unfold verify_satisfiable. rewrite Ht.
  destruct (z3_check timeout_ms (conv_assertions conv)) as [[m| |]|e]; simpl;
    [destruct m| | |]; eexists; repeat split; reflexivity.
Qed.

End Z3VerifierFacts.

(** ** Path enumeration and the analyzer's cache *)

Lemma key_eqb_canon (a b : hkey) : key_eqb a b = true <-> key_canon a = key_canon b.
Proof.
  destruct a as [|x|x|x], b as [|y|y|y]; simpl;
    try (split; intros H; discriminate H || reflexivity).
  - rewrite Bool.eqb_true_iff. destruct x, y; split; intros H; congruence.
  - rewrite Z.eqb_eq. split; intros H; [subst; reflexivity | injection H; auto].
  - rewrite Z.eqb_eq. split; intros H; [subst; reflexivity | injection H; auto].
  - rewrite Z.eqb_eq. split; intros H; [subst; reflexivity | injection H; auto].
  - rewrite String.eqb_eq. split; intros H; [subst; reflexivity | injection H; auto].
Qed.

Lemma key_eqb_sym (a b : hkey) : key_eqb a b = key_eqb b a.
Proof.
  destruct (key_eqb a b) eqn:E1, (key_eqb b a) eqn:E2; auto.
  - apply key_eqb_canon in E1. symmetry in E1. apply key_eqb_canon in E1. congruence.
  - apply key_eqb_canon in E2. symmetry in E2. apply key_eqb_canon in E2. congruence.
Qed.

Lemma key_eqb_trans (a b c : hkey) :
  key_eqb a b = true -> key_eqb b c = true -> key_eqb a c = true.
Proof.
  rewrite !key_eqb_canon. congruence.
Qed.

Lemma key_eqb_congr (a b c : hkey) :
  key_eqb a b = true -> key_eqb a c = key_eqb b c.
Proof.
  intros H. destruct (key_eqb b c) eqn:E.
  - exact (key_eqb_trans a b c H E).
  - destruct (key_eqb a c) eqn:E'; [|reflexivity].
    rewrite key_eqb_sym in H. rewrite (key_eqb_trans b a c H E') in E. discriminate.
Qed.

Lemma kget_key_eqb {A} (d : list (hkey * A)) (a b : hkey) :
  key_eqb a b = true -> kget d a = kget d b.
Proof.
  intros H. induction d as [|[k v] r IH]; simpl; [reflexivity|].
  rewrite (key_eqb_congr a b k H). destruct (key_eqb b k); [reflexivity | exact IH].
Qed.

Lemma ends_at_cons (t w : hkey) (r : list hkey) :
  ends_at t (w :: r) <->
  (r = [] /\ key_eqb w t = true) \/ (r <> [] /\ key_eqb w t = false /\ ends_at t r).
Proof.
  destruct r as [|x r]; simpl.
  - split; [intros H; left; auto | intros [[_ H]|[H _]]; [exact H | congruence]].
  - split; [intros H; right; split; [discriminate | exact H]
           | intros [[H _]|[_ H]]; [discriminate | exact H]].
Qed.

Lemma simple_paths_from_spec (g : digraph) (t : hkey) (fuel : nat) :
  forall visited v q,
    In q (simple_paths_from g t fuel visited v) <->
    exists p, q = (rev visited ++ p)%list /\ (length p <= fuel)%nat /\
      successor_chain g v p /\ fresh_nodes visited p = true /\ ends_at t p.
Proof.
  induction fuel as [|f IH]; intros visited v q; cbn [simple_paths_from].
  - split; [intros []|].
    intros [p [_ [Hl [_ [_ He]]]]]. destruct p; [exact He | simpl in Hl; lia].
  - rewrite in_flat_map. split.
    + intros [w [Hw Hq]].
      destruct (existsb (key_eqb w) visited) eqn:Ev; [destruct Hq|].
      destruct (key_eqb w t) eqn:Et.
      * destruct Hq as [<-|[]]. exists [w]. simpl. rewrite Ev, Et.
        repeat split; auto. lia.
      * apply IH in Hq. destruct Hq as [p [-> [Hl [Hc [Hf He]]]]].
        exists (w :: p). split; [simpl; rewrite <- List.app_assoc; reflexivity|].
        split; [simpl; lia|]. split; [split; assumption|].
        split; [simpl; rewrite Ev, Hf; reflexivity|].
        apply ends_at_cons. right. split; [intros ->; exact He | split; assumption].
    + intros [p [-> [Hl [Hc [Hf He]]]]].
      destruct p as [|w p]; [destruct He|]. destruct Hc as [Hw Hc].
      exists w. split; [exact Hw|].
      simpl in Hf. destruct (existsb (key_eqb w) visited) eqn:Ev; [discriminate|].
      simpl in Hf. apply ends_at_cons in He.
      destruct He as [[-> Et]|[Hne [Et He]]].
      * rewrite Et. left. simpl. reflexivity.
      * rewrite Et. apply IH. exists p.
        split; [simpl; rewrite <- List.app_assoc; reflexivity|].
        simpl in Hl. repeat split; auto. lia.
Qed.

Lemma all_simple_paths_spec (g : digraph) (source target : hkey) (cutoff : Z)
    (q : list hkey) :
  In q (all_simple_paths g source target cutoff) <->
  (key_eqb source target = true /\ (0 <= cutoff)%Z /\ q = [source]) \/
  (key_eqb source target = false /\ simple_path g source target (Z.to_nat cutoff) q).
Proof.
  unfold all_simple_paths, simple_path.
  destruct (key_eqb source target) eqn:E.
  - destruct (Z.leb_spec 0 cutoff) as [Hc|Hc]; simpl.
    + split; [intros [<-|[]]; left; auto | intros [[_ [_ ->]]|[H _]]; [now left | discriminate]].
    + split; [intros []|]. intros [[_ [H _]]|[H _]]; [lia | discriminate].
  - rewrite simple_paths_from_spec. split; [intros H; right; auto|].
    intros [[H _]|[_ H]]; [discriminate | exact H].
Qed.

(** X1: [nx.all_simple_paths(G, source, target, cutoff)] lists exactly the
    simple paths from [source] to [target] with at most [cutoff] edges: the
    path starts at [source], each next node is a successor of the previous
    one, no node repeats, and it stops at the first node equal to
    [target].  When [source] is [target] it lists only the one-node path
    [[source]] (none for a negative cutoff). *)
Theorem all_simple_paths_exact (g : digraph) (source target : hkey) (cutoff : Z)
    (q : list hkey) :
  In q (all_simple_paths g source target cutoff) <->
  (key_eqb source target = true /\ (0 <= cutoff)%Z /\ q = [source]) \/
  (key_eqb source target = false /\ simple_path g source target (Z.to_nat cutoff) q).
Proof. apply all_simple_paths_spec. Qed.

Lemma fresh_nodes_notin (visited p : list hkey) (x : hkey) :
  fresh_nodes visited p = true -> In x p -> existsb (key_eqb x) visited = false.
Proof.
  revert visited. induction p as [|w r IH]; intros visited Hf Hx; [destruct Hx|].
  simpl in Hf. apply andb_true_iff in Hf. destruct Hf as [Hw Hr].
  destruct Hx as [<-|Hx].
  - now apply negb_true_iff in Hw.
  - specialize (IH (w :: visited) Hr Hx). simpl in IH.
    apply orb_false_iff in IH. exact (proj2 IH).
Qed.

Lemma ends_at_last (t : hkey) (p : list hkey) :
  ends_at t p -> exists x, In x p /\ key_eqb x t = true.
Proof.
  induction p as [|w r IH]; intros H; [destruct H|].
  apply ends_at_cons in H. destruct H as [[_ H]|[_ [_ H]]].
  - exists w. split; [left; reflexivity | exact H].
  - destruct (IH H) as [x [Hx Ht]]. exists x. split; [right; exact Hx | exact Ht].
Qed.

Lemma all_simple_paths_self (g : digraph) (s t : hkey) (cutoff : Z) :
  key_eqb s t = true ->
  all_simple_paths g s t cutoff = if Z.leb 0 cutoff then [[s]] else [].
Proof. intros Hst. unfold all_simple_paths. now rewrite Hst. Qed.


Lemma length_cache_set (c : list (cache_key * list (list hkey))) k v :
  length (cache_set c k v) =
    (length c + match cache_get c k with Some _ => 0 | None => 1 end)%nat.
Proof.
  induction c as [|[k' v'] r IH]; simpl; [reflexivity|].
  destruct (cache_key_eqb k k'); simpl; [lia | rewrite IH; reflexivity].
Qed.

Section AnalyzerFacts.
Context {L : PyLib}.

(** X2: a call from a node to itself (or to an equal key) that is not
    answered from the cache returns the one-node path [[source]] (no path
    for a negative [max_depth]): a single node has no step to check, so it
    counts as one path found and none pruned. *)
Theorem find_attack_paths_same_endpoints (a : analyzer) (source target : hkey)
    (use_cache : bool) (elapsed : Q)
    (Hmiss : (if use_cache then cache_get (an_path_cache a) (source, target) else None) = None)
    (Hs : has_node (an_graph a) source = true)
    (Heq : key_eqb source target = true) :
  fst (find_attack_paths a source target use_cache elapsed) =
    Ok (if Z.leb 0 (an_max_depth a) then [[source]] else []) /\
  an_total_paths_found (snd (find_attack_paths a source target use_cache elapsed)) =
    (an_total_paths_found a + if Z.leb 0 (an_max_depth a) then 1 else 0)%nat /\
  an_paths_pruned (snd (find_attack_paths a source target use_cache elapsed)) =
    an_paths_pruned a.
Proof.
  assert (Ht : has_node (an_graph a) target = true).
  { unfold has_node, kmem in *. now rewrite <- (kget_key_eqb _ source target Heq). }
  unfold find_attack_paths. rewrite Hmiss, Hs, Ht. simpl.
  rewrite (all_simple_paths_self _ _ _ _ Heq).
  destruct (Z.leb 0 (an_max_depth a)); simpl; repeat split; lia.
Qed.


(** X4: [get_metrics()["cache_size"]] grows by one exactly when a call
    stores its result for a (source, target) pair not yet cached (a
    successful call with [use_cache]); cache hits, uncached calls and
    raising calls leave it unchanged.  After [clear_cache()] the size is 0
    and a cached call computes afresh, as an uncached call does. *)
Theorem find_attack_paths_cache_size (a : analyzer) (source target : hkey)
    (use_cache : bool) (elapsed : Q) :
  m_cache_size (get_metrics (snd (find_attack_paths a source target use_cache elapsed))) =
    (m_cache_size (get_metrics a) +
     match fst (find_attack_paths a source target use_cache elapsed) with
     | Ok _ =>
         if use_cache then
           match cache_get (an_path_cache a) (source, target) with
           | Some _ => 0 | None => 1 end
         else 0
     | Raise _ => 0
     end)%nat /\
  m_cache_size (get_metrics (clear_cache a)) = 0%nat /\
  fst (find_attack_paths (clear_cache a) source target true elapsed) =
    fst (find_attack_paths a source target false elapsed).
Proof.
  split; [|split; [reflexivity|]].
  - unfold find_attack_paths, get_metrics.
    destruct use_cache.
    + destruct (cache_get (an_path_cache a) (source, target)) as [c|] eqn:Hc;
        [simpl; lia|].
      destruct (negb (has_node (an_graph a) source)); [simpl; lia|].
      destruct (negb (has_node (an_graph a) target)); [simpl; lia|].
      simpl. rewrite length_cache_set, Hc. reflexivity.
    + destruct (negb (has_node (an_graph a) source)); [simpl; lia|].
      destruct (negb (has_node (an_graph a) target)); simpl; lia.
  - unfold find_attack_paths, clear_cache. cbn -[has_node all_simple_paths _is_path_valid].
    destruct (has_node (an_graph a) source); [|reflexivity].
    destruct (has_node (an_graph a) target); [|reflexivity].
    reflexivity.
Qed.

End AnalyzerFacts.

Lemma find_attack_paths_same_endpoints_witness :
  match build_graph [] example_rules [] with
  | Ok g =>
      (if true then cache_get (an_path_cache (new_analyzer g example_context 5))
                      (KStr "web", KStr "web") else None) = None /\
      has_node (an_graph (new_analyzer g example_context 5)) (KStr "web") = true /\
      key_eqb (KStr "web") (KStr "web") = true /\
      fst (find_attack_paths (new_analyzer g example_context 5)
             (KStr "web") (KStr "web") true 0) =
        Ok (if Z.leb 0 (an_max_depth (new_analyzer g example_context 5))
            then [[KStr "web"]] else []) /\
      an_total_paths_found (snd (find_attack_paths (new_analyzer g example_context 5)
             (KStr "web") (KStr "web") true 0)) =
        (an_total_paths_found (new_analyzer g example_context 5)
         + if Z.leb 0 (an_max_depth (new_analyzer g example_context 5)) then 1 else 0)%nat /\
      an_paths_pruned (snd (find_attack_paths (new_analyzer g example_context 5)
             (KStr "web") (KStr "web") true 0)) =
        an_paths_pruned (new_analyzer g example_context 5)
  | Raise _ => False
  end.
Proof.
  destruct (build_graph [] example_rules []) as [g|e] eqn:Hg;
    [|vm_compute in Hg; discriminate].
  assert (Hs : has_node (an_graph (new_analyzer g example_context 5)) (KStr "web") = true).
  { vm_compute in Hg. injection Hg as <-. reflexivity. }
  split; [reflexivity|]. split; [exact Hs|]. split; [reflexivity|].
  exact (find_attack_paths_same_endpoints (new_analyzer g example_context 5)
           (KStr "web") (KStr "web") true 0 eq_refl Hs eq_refl).
Defined.



(** ** What [build_graph] puts in the graph *)

(** Take apart a successful chain of [let*] and [if] in a hypothesis. *)
Ltac exc_inv H :=
  repeat (match type of H with
          | exc_bind ?m _ = Ok _ =>
              let E := fresh "E" in
              destruct m eqn:E; cbn [exc_bind] in H; [|discriminate H]
          | (if ?b then _ else _) = Ok _ =>
              let E := fresh "E" in destruct b eqn:E
          end).

Lemma kget_kset_cases {A} (d : list (hkey * A)) (k x : hkey) (v : A) :
  kget (kset d k v) x = kget d x \/
  (kget (kset d k v) x = Some v /\ key_eqb x k = true).
Proof.
  induction d as [|[k' v'] r IH]; simpl.
  - destruct (key_eqb x k) eqn:E; [right; auto | left; reflexivity].
  - destruct (key_eqb k k') eqn:Ek; simpl.
    + destruct (key_eqb x k') eqn:Ex; [right; split; [reflexivity|] | left; reflexivity].
      rewrite key_eqb_sym in Ek. exact (key_eqb_trans x k' k Ex Ek).
    + destruct (key_eqb x k'); [left; reflexivity | exact IH].
Qed.

Lemma kget_kset_present {A} (d : list (hkey * A)) (k x : hkey) (v : A) :
  kget d x <> None -> kget (kset d k v) x <> None.
Proof.
  intros H. destruct (kget_kset_cases d k x v) as [E|[E _]]; rewrite E; [exact H | discriminate].
Qed.

Lemma ensure_node_has_node (g g' : digraph) (n x : hkey) :
  ensure_node g n = Ok g' -> has_node g x = true -> has_node g' x = true.
Proof.
  unfold ensure_node, has_node. destruct (kmem (g_succ g) n).
  - now intros [= <-].
  - unfold kmem. destruct n; try discriminate; intros [= <-]; simpl; rewrite kget_app;
      destruct (kget (g_node g) x); easy.
Qed.

Lemma add_edge_has_node (g g' : digraph) (u v : hkey) (attr : attrs) (x : hkey) :
  add_edge g u v attr = Ok g' -> has_node g x = true -> has_node g' x = true.
Proof.
  unfold add_edge. intros H Hx.
  destruct (ensure_node g u) as [g1|e] eqn:E1; cbn [exc_bind] in H; [|discriminate H].
  destruct (ensure_node g1 v) as [g2|e] eqn:E2; cbn [exc_bind] in H; [|discriminate H].
  injection H as <-. unfold has_node. simpl.
  exact (ensure_node_has_node g1 g2 v x E2 (ensure_node_has_node g g1 u x E1 Hx)).
Qed.

Lemma kset_succ_keeps_edge (g : digraph) (u : hkey) (nbrs' : list (hkey * attrs))
    (st : hkey * hkey) :
  (forall b, kget (match kget (g_succ g) u with Some m => m | None => [] end) b <> None ->
             kget nbrs' b <> None) ->
  has_edge g st = true ->
  has_edge (mk_digraph (g_node g) (kset (g_succ g) u nbrs')) st = true.
Proof.
  intros Hn Hst. destruct st as [a b]. unfold has_edge, get_edge_data in *.
  cbn [fst snd g_succ] in *.
  destruct (kget (g_succ g) a) as [m|] eqn:Ea; [|discriminate Hst].
  destruct (kget m b) as [d|] eqn:Eb; [|discriminate Hst].
  destruct (kget_kset_cases (g_succ g) u a nbrs') as [E|[E Hau]].
  - rewrite E, Ea, Eb. reflexivity.
  - rewrite E. rewrite (kget_key_eqb _ a u Hau) in Ea. rewrite Ea in Hn.
    destruct (kget nbrs' b) eqn:Ek; [reflexivity|].
    exfalso. apply (Hn b); [rewrite Eb; discriminate | exact Ek].
Qed.

Lemma add_edge_keeps_edge (g g' : digraph) (u v : hkey) (attr : attrs) (st : hkey * hkey) :
  add_edge g u v attr = Ok g' -> has_edge g st = true -> has_edge g' st = true.
Proof.
  unfold add_edge. intros H Hst.
  destruct (ensure_node g u) as [g1|e] eqn:E1; cbn [exc_bind] in H; [|discriminate H].
  destruct (ensure_node g1 v) as [g2|e] eqn:E2; cbn [exc_bind] in H; [|discriminate H].
  injection H as <-.
  apply kset_succ_keeps_edge.
  - intros b. apply kget_kset_present.
  - unfold has_edge in *.
    rewrite (ensure_node_edge_data g1 g2 v), (ensure_node_edge_data g g1 u) by assumption.
    exact Hst.
Qed.

Lemma add_node_has_node_self (g g' : digraph) (n : hkey) (attr : attrs) :
  add_node g n attr = Ok g' -> has_node g' n = true.
Proof.
  unfold add_node, has_node, kmem.
  destruct (kget (g_node g) n) as [old|] eqn:E.
  - intros [= <-]. simpl. now rewrite kget_kset_same.
  - destruct n; try discriminate; intros [= <-]; cbn [g_node]; rewrite kget_app, E;
      cbn [kget]; rewrite key_eqb_refl; reflexivity.
Qed.

Lemma add_node_keeps_node (g g' : digraph) (n : hkey) (attr : attrs) (x : hkey) :
  add_node g n attr = Ok g' -> has_node g x = true -> has_node g' x = true.
Proof.
  unfold add_node, has_node, kmem. intros H Hx.
  destruct (kget (g_node g) n) as [old|] eqn:E.
  - injection H as <-. simpl.
    destruct (kget (kset (g_node g) n (dict_update old attr)) x) eqn:Ek; [reflexivity|].
    exfalso. apply (kget_kset_present (g_node g) n x (dict_update old attr));
      [destruct (kget (g_node g) x); discriminate | exact Ek].
  - destruct n; try discriminate; injection H as <-; simpl; rewrite kget_app;
      destruct (kget (g_node g) x); easy.
Qed.

Lemma add_node_keeps_edge (g g' : digraph) (n : hkey) (attr : attrs) (st : hkey * hkey) :
  add_node g n attr = Ok g' -> has_edge g st = true -> has_edge g' st = true.
Proof.
  unfold add_node, has_edge, get_edge_data. intros H Hst.
  destruct (kget (g_node g) n) as [old|] eqn:E.
  - injection H as <-. exact Hst.
  - destruct n; try discriminate; injection H as <-; simpl; rewrite kget_app;
      destruct (kget (g_succ g) (fst st)); easy.
Qed.

Lemma add_asset_cases (g g' : digraph) (asset : pyval) :
  add_asset g asset = Ok g' -> exists n attr, add_node g n attr = Ok g'.
Proof.
  unfold add_asset. intros H. exc_inv H. eauto.
Qed.

Lemma add_firewall_rule_cases (g g' : digraph) (rule : pyval) :
  add_firewall_rule g rule = Ok g' ->
  g' = g \/ exists u v attr, add_edge g u v attr = Ok g'.
Proof.
  unfold add_firewall_rule. intros H. exc_inv H;
    first [injection H as <-; left; reflexivity | right; eauto].
Qed.

Lemma add_iam_policy_cases (g g' : digraph) (policy : pyval) :
  add_iam_policy g policy = Ok g' ->
  g' = g \/ exists u v attr, add_edge g u v attr = Ok g'.
Proof.
  unfold add_iam_policy. intros H. exc_inv H;
    first [injection H as <-; left; reflexivity | right; eauto].
Qed.

Lemma add_asset_node (g g' : digraph) (d : list (string * pyval)) (id : pyval) (k : hkey) :
  add_asset g (PDict d) = Ok g' -> dict_get d "id" = Some id -> key_of id = Ok k ->
  has_node g' k = true.
Proof.
  unfold add_asset, py_getitem. intros H Hid Hk. rewrite Hid in H.
  cbn [exc_bind py_get] in H. rewrite Hk in H. exc_inv H.
  exact (add_node_has_node_self _ _ _ _ H).
Qed.

Lemma add_firewall_rule_edge (g g' : digraph) (rule : pyval) (u v : hkey) :
  add_firewall_rule g rule = Ok g' ->
  allow_endpoints rule "action" "source" "destination" = Some (u, v) ->
  has_edge g' (u, v) = true.
Proof.
  intros H1 H2. destruct rule as [| | | | |d]; try discriminate H2.
  unfold add_firewall_rule in H1. unfold allow_endpoints in H2.
  cbn [py_get exc_bind] in H1.
  destruct (dict_get_default d "action" (PStr "")) as [| | |s| |]; try discriminate H2.
  cbn [py_lower_val exc_bind] in H1.
  destruct (String.eqb (py_lower s) "allow"); [|discriminate H2]. cbv zeta in H2.
  destruct (truthy (dict_get_default d "source" PNone)
            && truthy (dict_get_default d "destination" PNone)); [|discriminate H2].
  destruct (key_of (dict_get_default d "source" PNone)) as [u'|] eqn:Eu; [|discriminate H2].
  destruct (key_of (dict_get_default d "destination" PNone)) as [v'|] eqn:Ev;
    [|discriminate H2].
  injection H2 as <- <-. cbn [exc_bind] in H1.
  unfold has_edge. simpl. rewrite (add_edge_edge_data _ _ _ _ _ H1). reflexivity.
Qed.

Lemma add_iam_policy_edge (g g' : digraph) (policy : pyval) (u v : hkey) :
  add_iam_policy g policy = Ok g' ->
  allow_endpoints policy "Effect" "Principal" "Resource" = Some (u, v) ->
  has_edge g' (u, v) = true.
Proof.
  intros H1 H2. destruct policy as [| | | | |d]; try discriminate H2.
  unfold add_iam_policy in H1. unfold allow_endpoints in H2.
  cbn [py_get exc_bind] in H1.
  destruct (dict_get_default d "Effect" (PStr "")) as [| | |s| |]; try discriminate H2.
  cbn [py_lower_val exc_bind] in H1.
  destruct (String.eqb (py_lower s) "allow"); [|discriminate H2]. cbv zeta in H2.
  destruct (truthy (dict_get_default d "Principal" PNone)
            && truthy (dict_get_default d "Resource" PNone)); [|discriminate H2].
  destruct (key_of (dict_get_default d "Principal" PNone)) as [u'|] eqn:Eu; [|discriminate H2].
  destruct (key_of (dict_get_default d "Resource" PNone)) as [v'|] eqn:Ev;
    [|discriminate H2].
  injection H2 as <- <-. cbn [exc_bind] in H1.
  exc_inv H1.
  unfold has_edge. simpl. rewrite (add_edge_edge_data _ _ _ _ _ H1). reflexivity.
Qed.

Lemma exc_fold_mem {A B} (P : A -> Prop) (f : A -> B -> exc A) (x : B)
    (Hx : forall a a', f a x = Ok a' -> P a')
    (Hf : forall a b a', f a b = Ok a' -> P a -> P a') :
  forall l a a', In x l -> exc_fold f a l = Ok a' -> P a'.
Proof.
  induction l as [|b l IH]; intros a a' Hin H; [destruct Hin|].
  simpl in H. destruct (f a b) as [a1|e] eqn:E; cbn [exc_bind] in H; [|discriminate H].
  destruct Hin as [<-|Hin].
  - exact (exc_fold_preserves P f Hf l a1 a' H (Hx a a1 E)).
  - exact (IH a1 a' Hin H).
Qed.

(** X5: when [build_graph] succeeds, every asset whose ["id"] is hashable
    is a node of the graph, every allowing firewall rule with truthy
    ["source"] and ["destination"] is an edge, and every allowing IAM
    policy with truthy ["Principal"] and ["Resource"] is an edge: later
    additions never remove a node or an edge. *)
Theorem build_graph_covers_inputs (assets rules policies : list pyval) (g : digraph)
    (Hb : build_graph assets rules policies = Ok g) :
  (forall asset d id k, In asset assets -> asset = PDict d ->
     dict_get d "id" = Some id -> key_of id = Ok k -> has_node g k = true) /\
  (forall rule u v, In rule rules ->
     allow_endpoints rule "action" "source" "destination" = Some (u, v) ->
     has_edge g (u, v) = true) /\
  (forall policy u v, In policy policies ->
     allow_endpoints policy "Effect" "Principal" "Resource" = Some (u, v) ->
     has_edge g (u, v) = true).
Proof.
  unfold build_graph in Hb.
  destruct (exc_fold add_asset empty_digraph assets) as [g1|e] eqn:H1;
    cbn [exc_bind] in Hb; [|discriminate Hb].
  destruct (exc_fold add_firewall_rule g1 rules) as [g2|e] eqn:H2;
    cbn [exc_bind] in Hb; [|discriminate Hb].
  assert (Hrn : forall x, has_node g1 x = true -> has_node g2 x = true).
  { intros x. apply (exc_fold_preserves (fun h => has_node h x = true) add_firewall_rule)
      with (l := rules) (a := g1); [|exact H2].
    intros a b a' E Ha. destruct (add_firewall_rule_cases a a' b E) as [->|[u [v [at' Ea]]]];
      [exact Ha | exact (add_edge_has_node _ _ _ _ _ _ Ea Ha)]. }
  assert (Hpn : forall x, has_node g2 x = true -> has_node g x = true).
  { intros x. apply (exc_fold_preserves (fun h => has_node h x = true) add_iam_policy)
      with (l := policies) (a := g2); [|exact Hb].
    intros a b a' E Ha. destruct (add_iam_policy_cases a a' b E) as [->|[u [v [at' Ea]]]];
      [exact Ha | exact (add_edge_has_node _ _ _ _ _ _ Ea Ha)]. }
  assert (Hpe : forall st, has_edge g2 st = true -> has_edge g st = true).
  { intros st. apply (exc_fold_preserves (fun h => has_edge h st = true) add_iam_policy)
      with (l := policies) (a := g2); [|exact Hb].
    intros a b a' E Ha. destruct (add_iam_policy_cases a a' b E) as [->|[u [v [at' Ea]]]];
      [exact Ha | exact (add_edge_keeps_edge _ _ _ _ _ _ Ea Ha)]. }
  split; [|split].
  - intros asset d id k Hin -> Hid Hk. apply Hpn, Hrn.
    apply (exc_fold_mem (fun h => has_node h k = true) add_asset (PDict d))
      with (l := assets) (a := empty_digraph); [| |exact Hin|exact H1].
    + intros a a' E. exact (add_asset_node a a' d id k E Hid Hk).
    + intros a b a' E Ha. destruct (add_asset_cases a a' b E) as [n [at' En]].
      exact (add_node_keeps_node _ _ _ _ _ En Ha).
  - intros rule u v Hin Hr. apply Hpe.
    apply (exc_fold_mem (fun h => has_edge h (u, v) = true) add_firewall_rule rule)
      with (l := rules) (a := g1); [| |exact Hin|exact H2].
    + intros a a' E. exact (add_firewall_rule_edge a a' rule u v E Hr).
    + intros a b a' E Ha. destruct (add_firewall_rule_cases a a' b E) as [->|[x [y [at' Ea]]]];
        [exact Ha | exact (add_edge_keeps_edge _ _ _ _ _ _ Ea Ha)].
  - intros policy u v Hin Hp.
    apply (exc_fold_mem (fun h => has_edge h (u, v) = true) add_iam_policy policy)
      with (l := policies) (a := g2); [| |exact Hin|exact Hb].
    + intros a a' E. exact (add_iam_policy_edge a a' policy u v E Hp).
    + intros a b a' E Ha. destruct (add_iam_policy_cases a a' b E) as [->|[x [y [at' Ea]]]];
        [exact Ha | exact (add_edge_keeps_edge _ _ _ _ _ _ Ea Ha)].
Qed.

Lemma build_graph_covers_inputs_witness :
  match build_graph example_assets example_rules example_policies with
  | Ok g =>
      build_graph example_assets example_rules example_policies = Ok g /\
      (forall asset d id k, In asset example_assets -> asset = PDict d ->
         dict_get d "id" = Some id -> key_of id = Ok k -> has_node g k = true) /\
      (forall rule u v, In rule example_rules ->
         allow_endpoints rule "action" "source" "destination" = Some (u, v) ->
         has_edge g (u, v) = true) /\
      (forall policy u v, In policy example_policies ->
         allow_endpoints policy "Effect" "Principal" "Resource" = Some (u, v) ->
         has_edge g (u, v) = true)
  | Raise _ => False
  end.
Proof.
  destruct (build_graph example_assets example_rules example_policies) as [g|e] eqn:Hg;
    [|vm_compute in Hg; discriminate].
  split; [reflexivity|].
  exact (build_graph_covers_inputs example_assets example_rules example_policies g Hg).
Defined.

(** ** The threat scorer's levels, recommendations and ranking *)

Module ThreatScorerFacts.
Import PathThreatScorer.

Lemma qle_bool_cases (x y : Q) :
  (Qle_bool x y = true /\ (x <= y)%Q) \/ (Qle_bool x y = false /\ (y < x)%Q).
Proof.
  destruct (Qle_bool x y) eqn:E.
  - left. split; [reflexivity | now apply Qle_bool_iff].
  - right. split; [reflexivity|]. apply Qnot_le_lt. now apply qle_bool_false.
Qed.

Lemma py_max_le (a b c : Q) : (a <= c)%Q -> (b <= c)%Q -> (py_max a b <= c)%Q.
Proof. unfold py_max. destruct (Qle_bool b a); auto. Qed.

Lemma py_max_ge (a b : Q) : (a <= py_max a b /\ b <= py_max a b)%Q.
Proof.
  unfold py_max. destruct (qle_bool_cases b a) as [[E H]|[E H]]; rewrite E; lra.
Qed.

Lemma py_min_le (a b : Q) : (py_min a b <= a /\ py_min a b <= b)%Q.
Proof.
  unfold py_min. destruct (qle_bool_cases a b) as [[E H]|[E H]]; rewrite E; lra.
Qed.

Lemma py_min_ge (a b c : Q) : (c <= a)%Q -> (c <= b)%Q -> (c <= py_min a b)%Q.
Proof. unfold py_min. destruct (Qle_bool a b); auto. Qed.

Lemma score_to_threat_level_spec (s : Q) :
  ((9 <= s)%Q /\ _score_to_threat_level s = CRITICAL) \/
  ((7 <= s)%Q /\ (s < 9)%Q /\ _score_to_threat_level s = HIGH) \/
  ((4 <= s)%Q /\ (s < 7)%Q /\ _score_to_threat_level s = MEDIUM) \/
  ((0 < s)%Q /\ (s < 4)%Q /\ _score_to_threat_level s = LOW) \/
  ((s <= 0)%Q /\ _score_to_threat_level s = INFORMATIONAL).
Proof.
  unfold _score_to_threat_level.
  destruct (qle_bool_cases 9 s) as [[E9 H9]|[E9 H9]]; rewrite E9; [left; auto|].
  destruct (qle_bool_cases 7 s) as [[E7 H7]|[E7 H7]]; rewrite E7; [right; left; auto|].
  destruct (qle_bool_cases 4 s) as [[E4 H4]|[E4 H4]]; rewrite E4; [right; right; left; auto|].
  destruct (qle_bool_cases s 0) as [[E0 H0]|[E0 H0]]; rewrite E0; simpl.
  - right; right; right; right; auto.
  - right; right; right; left; auto.
Qed.

(** X6: [_score_to_threat_level] never gives a lower level to a higher
    score; a score is [CRITICAL] exactly from 9.0 up and [INFORMATIONAL]
    exactly at 0.0 and below. *)
Theorem score_to_threat_level_monotone :
  (forall s1 s2 : Q, (s1 <= s2)%Q ->
     (severity (_score_to_threat_level s1) <= severity (_score_to_threat_level s2))%nat) /\
  (forall s : Q, _score_to_threat_level s = CRITICAL <-> (9 <= s)%Q) /\
  (forall s : Q, _score_to_threat_level s = INFORMATIONAL <-> (s <= 0)%Q).
Proof.
  split; [|split].
  - intros s1 s2 H.
    destruct (score_to_threat_level_spec s1) as [[? E1]|[[? [? E1]]|[[? [? E1]]|[[? [? E1]]|[? E1]]]]];
    destruct (score_to_threat_level_spec s2) as [[? E2]|[[? [? E2]]|[[? [? E2]]|[[? [? E2]]|[? E2]]]]];
    rewrite E1, E2; simpl; try lia; lra.
  - intros s.
    destruct (score_to_threat_level_spec s) as [[? E]|[[? [? E]]|[[? [? E]]|[[? [? E]]|[? E]]]]];
    rewrite E; split; intros; try discriminate; try reflexivity; lra.
  - intros s.
    destruct (score_to_threat_level_spec s) as [[? E]|[[? [? E]]|[[? [? E]]|[[? [? E]]|[? E]]]]];
    rewrite E; split; intros; try discriminate; try reflexivity; lra.
Qed.

Lemma inject_Z_le_iff (x y : Z) : (x <= y)%Z <-> (inject_Z x <= inject_Z y)%Q.
Proof. rewrite Zle_Qle. reflexivity. Qed.

Lemma inject_Z_lt_iff (x y : Z) : (x < y)%Z <-> (inject_Z x < inject_Z y)%Q.
Proof. rewrite Zlt_Qlt. reflexivity. Qed.

Lemma lineage_bounds_of (n : Z) (Hn : (0 <= n)%Z) :
  let l := (if n <=? 3 then (19 # 2) - inject_Z (n - 1) * (1 # 2)
            else if n <=? 6 then 7%Q - inject_Z (n - 3) * (1 # 2)
            else py_max 3%Q (6%Q - inject_Z (n - 6) * (3 # 10)))%Q in
  (3 <= l /\ l <= 10)%Q.
Proof.
  cbv zeta.
  destruct (Z.leb_spec n 3).
  - assert (inject_Z (-1) <= inject_Z (n - 1))%Q by (apply (proj1 (inject_Z_le_iff _ _)); lia).
    assert (inject_Z (n - 1) <= inject_Z 2)%Q by (apply (proj1 (inject_Z_le_iff _ _)); lia).
    change (inject_Z (-1)) with (-1 # 1) in *. change (inject_Z 2) with (2 # 1) in *.
    lra.
  - destruct (Z.leb_spec n 6).
    + assert (inject_Z 1 <= inject_Z (n - 3))%Q by (apply (proj1 (inject_Z_le_iff _ _)); lia).
      assert (inject_Z (n - 3) <= inject_Z 3)%Q by (apply (proj1 (inject_Z_le_iff _ _)); lia).
      change (inject_Z 1) with (1 # 1) in *. change (inject_Z 3) with (3 # 1) in *.
      lra.
    + assert (inject_Z 1 <= inject_Z (n - 6))%Q by (apply (proj1 (inject_Z_le_iff _ _)); lia).
      change (inject_Z 1) with (1 # 1) in *.
      pose proof (py_max_ge 3 (6 - inject_Z (n - 6) * (3 # 10))) as [Hg1 Hg2].
      split; [lra|]. apply py_max_le; lra.
Qed.

Lemma lineage_antitone_of (n m : Z) (Hn : (0 <= n)%Z) (Hnm : (n <= m)%Z)
    (Hband : (m <= 6 \/ 7 <= n)%Z) :
  ((if m <=? 3 then (19 # 2) - inject_Z (m - 1) * (1 # 2)
    else if m <=? 6 then 7%Q - inject_Z (m - 3) * (1 # 2)
    else py_max 3%Q (6%Q - inject_Z (m - 6) * (3 # 10))) <=
   (if n <=? 3 then (19 # 2) - inject_Z (n - 1) * (1 # 2)
    else if n <=? 6 then 7%Q - inject_Z (n - 3) * (1 # 2)
    else py_max 3%Q (6%Q - inject_Z (n - 6) * (3 # 10))))%Q.
Proof.
  destruct (Z.leb_spec m 3), (Z.leb_spec n 3); try lia.
  - assert (inject_Z (n - 1) <= inject_Z (m - 1))%Q
      by (apply (proj1 (inject_Z_le_iff _ _)); lia).
    lra.
  - destruct (Z.leb_spec m 6); try lia.
    assert (inject_Z 1 <= inject_Z (m - 3))%Q by (apply (proj1 (inject_Z_le_iff _ _)); lia).
    assert (inject_Z (n - 1) <= inject_Z 2)%Q by (apply (proj1 (inject_Z_le_iff _ _)); lia).
    change (inject_Z 1) with (1 # 1) in *. change (inject_Z 2) with (2 # 1) in *.
    lra.
  - destruct (Z.leb_spec m 6), (Z.leb_spec n 6); try lia.
    + assert (inject_Z (n - 3) <= inject_Z (m - 3))%Q
        by (apply (proj1 (inject_Z_le_iff _ _)); lia).
      lra.
    + assert (inject_Z (n - 6) <= inject_Z (m - 6))%Q
        by (apply (proj1 (inject_Z_le_iff _ _)); lia).
      pose proof (py_max_ge 3 (6 - inject_Z (n - 6) * (3 # 10))) as [Hg1 Hg2].
      apply py_max_le; lra.
Qed.

(** X7: the lineage score of a path lies between 3.0 and 10.0; it never
    grows with the length among paths of at most 6 nodes, nor among paths
    of at least 7 nodes, but a 7-node path scores higher (5.7) than a
    6-node one (5.5). *)
Theorem lineage_score_bounds_and_order :
  (forall p : list string,
     (3 <= _calculate_lineage_score p /\ _calculate_lineage_score p <= 10)%Q) /\
  (forall p1 p2 : list string, (length p1 <= length p2)%nat ->
     (length p2 <= 6 \/ 7 <= length p1)%nat ->
     (_calculate_lineage_score p2 <= _calculate_lineage_score p1)%Q) /\
  (forall p6 p7 : list string, length p6 = 6%nat -> length p7 = 7%nat ->
     (_calculate_lineage_score p6 < _calculate_lineage_score p7)%Q).
Proof.
  split; [|split].
  - intros p. unfold _calculate_lineage_score.
    exact (lineage_bounds_of (Z.of_nat (length p)) (Nat2Z.is_nonneg _)).
  - intros p1 p2 H Hb. unfold _calculate_lineage_score.
    apply lineage_antitone_of; [apply Nat2Z.is_nonneg | lia | lia].
  - intros p6 p7 H6 H7. unfold _calculate_lineage_score. rewrite H6, H7.
    unfold py_max. vm_compute. reflexivity.
Qed.

Lemma calculate_impact_le_10 (cv mc : Q) (n : Z) :
  (cv <= 10)%Q -> (mc <= 10)%Q -> (_calculate_impact cv mc n <= 10)%Q.
Proof.
  intros Hc Hm. unfold _calculate_impact.
  assert (H1 : (py_max cv (if Qeq_bool mc 0 then 0 else mc) <= 10)%Q).
  { apply py_max_le; [exact Hc|]. destruct (Qeq_bool mc 0); lra. }
  destruct (Z.ltb_spec 0 n).
  - apply (Qle_trans _ 10); [apply py_min_le | lra].
  - destruct (Qeq_bool (py_max cv (if Qeq_bool mc 0 then 0 else mc)) 0); lra.
Qed.

Lemma or_zero_le_10 (x : option Q) :
  match x with Some q => (q <= 10)%Q | None => True end -> (or_zero x <= 10)%Q.
Proof.
  destruct x as [q|]; simpl; [|intros; lra].
  intros H. destruct (Qeq_bool q 0); lra.
Qed.

(** X8: a path the solver did not find exploitable is never rated [HIGH]
    or [CRITICAL] when the CVSS inputs are at most 10: its exploitability
    and confidence components are 0, its overall score stays below 7.0, and
    its only recommendation is that no action is required. *)
Theorem score_path_not_exploitable (p : list string) (cvss_base_score : option Q)
    (z3_confidence : Q) (cve_count : Z) (max_cve_score : option Q)
    (has_authentication_bypass has_privilege_escalation : bool)
    (Hcvss : match cvss_base_score with Some q => (q <= 10)%Q | None => True end)
    (Hmax : match max_cve_score with Some q => (q <= 10)%Q | None => True end) :
  exploitability_score (score_path p false cvss_base_score z3_confidence cve_count
                          max_cve_score has_authentication_bypass has_privilege_escalation) = 0%Q /\
  confidence_score (score_path p false cvss_base_score z3_confidence cve_count
                      max_cve_score has_authentication_bypass has_privilege_escalation) = 0%Q /\
  (overall_score (score_path p false cvss_base_score z3_confidence cve_count
                    max_cve_score has_authentication_bypass has_privilege_escalation) < 7)%Q /\
  (severity (threat_level (score_path p false cvss_base_score z3_confidence cve_count
                             max_cve_score has_authentication_bypass
                             has_privilege_escalation)) <= 2)%nat /\
  recommendations (score_path p false cvss_base_score z3_confidence cve_count
                     max_cve_score has_authentication_bypass has_privilege_escalation) =
    ["No immediate action required - path not exploitable."].
Proof.
  pose proof (calculate_impact_le_10 (or_zero cvss_base_score) (or_zero max_cve_score)
                cve_count (or_zero_le_10 _ Hcvss) (or_zero_le_10 _ Hmax)) as Hi.
  pose proof (lineage_bounds_of (Z.of_nat (length p)) (Nat2Z.is_nonneg _)) as [_ Hl].
  fold (_calculate_lineage_score p) in Hl.
  set (i := _calculate_impact (or_zero cvss_base_score) (or_zero max_cve_score) cve_count) in *.
  set (l := _calculate_lineage_score p) in *.
  assert (Ho : (py_min 10 (py_max 0 (0 * w_exploitability + i * w_impact
                                     + l * w_lineage + 0 * w_confidence)) < 7)%Q).
  { apply (Qle_lt_trans _ (py_max 0 (0 * w_exploitability + i * w_impact
                                    + l * w_lineage + 0 * w_confidence))).
    - apply py_min_le.
    - apply (Qle_lt_trans _ (11 # 2)); [|lra].
      apply py_max_le; unfold w_exploitability, w_impact, w_lineage, w_confidence; lra. }
  unfold score_path. cbn [exploitability_score confidence_score overall_score threat_level
                          recommendations].
  unfold _calculate_exploitability, _calculate_confidence. cbn [negb].
  fold i l.
  split; [reflexivity|]. split; [reflexivity|]. split; [exact Ho|]. split; [|reflexivity].
  destruct (score_to_threat_level_spec
              (py_min 10 (py_max 0 (0 * w_exploitability + i * w_impact
                                    + l * w_lineage + 0 * w_confidence))))
    as [[? E]|[[? [? E]]|[[? [? E]]|[[? [? E]]|[? E]]]]];
    rewrite E; simpl; try lia; lra.
Qed.

Lemma score_path_not_exploitable_witness :
  (match Some (49 # 5) with Some q => (q <= 10)%Q | None => True end) /\
  (match @None Q with Some q => (q <= 10)%Q | None => True end) /\
  exploitability_score (score_path ["web"; "db"] false (Some (49 # 5)) 1 3 None false false)
    = 0%Q /\
  confidence_score (score_path ["web"; "db"] false (Some (49 # 5)) 1 3 None false false)
    = 0%Q /\
  (overall_score (score_path ["web"; "db"] false (Some (49 # 5)) 1 3 None false false) < 7)%Q /\
  (severity (threat_level (score_path ["web"; "db"] false (Some (49 # 5)) 1 3 None
                             false false)) <= 2)%nat /\
  recommendations (score_path ["web"; "db"] false (Some (49 # 5)) 1 3 None false false) =
    ["No immediate action required - path not exploitable."].
Proof.
  assert (H1 : match Some (49 # 5) with Some q => (q <= 10)%Q | None => True end)
    by (simpl; lra).
  assert (H2 : match @None Q with Some q => (q <= 10)%Q | None => True end) by exact I.
  split; [exact H1|]. split; [exact H2|].
  exact (score_path_not_exploitable ["web"; "db"] (Some (49 # 5)) 1 3 None false false H1 H2).
Defined.

Lemma existsb_eqb_in (t : string) (l : list string) :
  existsb (String.eqb t) l = true <-> In t l.
Proof.
  rewrite existsb_exists. split.
  - intros [x [Hx E]]. apply String.eqb_eq in E. now subst.
  - intros H. exists t. split; [exact H | apply String.eqb_refl].
Qed.

(** X9: [_generate_recommendations] gives a path that is not exploitable
    the single line that no action is required.  For an exploitable path it
    gives one to four lines, the last always the detective-controls one; it
    names the path's middle node for segmentation exactly when the path has
    more than 4 nodes, asks for access controls on the target exactly when
    the last node is ["database"], ["secrets"] or ["admin"] (["unknown"]
    for an empty path), asks to review the CVEs exactly when [cve_count > 0],
    and flags a high CVSS score exactly when there is no CVE and the CVSS
    score is at least 7.0. *)
Theorem generate_recommendations_lines (p : list string) (is_exploitable : bool)
    (cvss_score : option Q) (cve_count : Z) :
  (is_exploitable = false ->
     _generate_recommendations p is_exploitable cvss_score cve_count =
       ["No immediate action required - path not exploitable."]) /\
  (is_exploitable = true ->
     let rs := _generate_recommendations p is_exploitable cvss_score cve_count in
     (1 <= length rs <= 4)%nat /\
     last rs "" = "Implement detective controls (CloudTrail, VPC Flow Logs)" /\
     (In ("Consider network segmentation: Break path by isolating "
          ++ nth (Nat.div (length p) 2) p "") rs <-> (4 < length p)%nat) /\
     (In ("Increase access controls on " ++ last p "unknown"
          ++ ": Implement MFA and least-privilege IAM") rs <->
        In (last p "unknown") ["database"; "secrets"; "admin"]) /\
     (In ("Review " ++ z_to_str cve_count ++ " associated CVEs and apply patches") rs <->
        0 < cve_count) /\
     (In "High CVSS score detected - prioritize remediation" rs <->
        cve_count <= 0 /\
        exists q, cvss_score = Some q /\ ~ (q == 0)%Q /\ (7 <= q)%Q)).
Proof.
  split; [intros ->; reflexivity|]. intros ->. cbv zeta.
  assert (Hh : high_cvss cvss_score = true <->
               exists q, cvss_score = Some q /\ ~ (q == 0)%Q /\ (7 <= q)%Q).
  { unfold high_cvss. destruct cvss_score as [q|].
    - rewrite andb_true_iff, negb_true_iff, Qle_bool_iff. split.
      + intros [E H]. exists q. split; [reflexivity|]. split; [|exact H].
        intros Hq. apply Qeq_bool_iff in Hq. congruence.
      + intros [q' [[= <-] [Hq H]]]. split; [|exact H].
        destruct (Qeq_bool q 0) eqn:E; [|reflexivity].
        exfalso. apply Hq. now apply Qeq_bool_iff.
    - split; [discriminate | intros [q [E _]]; discriminate E]. }
  rewrite <- Hh, <- (existsb_eqb_in (last p "unknown")).
  unfold _generate_recommendations. cbn [negb].
  destruct (Nat.ltb_spec 4 (length p)) as [H4|H4];
  destruct (existsb (String.eqb (last p "unknown")) ["database"; "secrets"; "admin"]);
  destruct (Z.ltb_spec 0 cve_count) as [Hc|Hc];
  destruct (high_cvss cvss_score);
  cbn [app length last In String.append];
  repeat split; try lia;
  repeat match goal with
         | |- _ \/ _ -> _ => intros [?|?]
         | |- False -> _ => intros []
         | H : False |- _ => destruct H
         | H : _ \/ _ |- _ => destruct H as [H|H]
         end;
  try discriminate; try tauto; try congruence; try (intros; lia).
Qed.

Definition score_ge (a b : PathThreatScore) : Prop :=
  (overall_score b <= overall_score a)%Q.

Lemma insert_desc_hdrel (x y : PathThreatScore) (l : list PathThreatScore) :
  HdRel score_ge y l -> score_ge y x -> HdRel score_ge y (insert_desc x l).
Proof.
  intros Hl Hx. destruct l as [|z r]; simpl.
  - constructor. exact Hx.
  - destruct (negb (Qle_bool (overall_score x) (overall_score z))); constructor;
      [exact Hx | now inversion Hl].
Qed.

Lemma insert_desc_sorted (x : PathThreatScore) (l : list PathThreatScore) :
  Sorted score_ge l -> Sorted score_ge (insert_desc x l).
Proof.
  induction l as [|y r IH]; intros Hs; simpl.
  - repeat constructor.
  - inversion Hs as [|? ? Hr Hhd]; subst.
    destruct (qle_bool_cases (overall_score x) (overall_score y)) as [[E H]|[E H]];
      rewrite E; simpl.
    + constructor; [exact (IH Hr)|]. apply insert_desc_hdrel; [exact Hhd | exact H].
    + constructor; [exact Hs|]. constructor. unfold score_ge. lra.
Qed.

Lemma insert_desc_perm (x : PathThreatScore) (l : list PathThreatScore) :
  Permutation (insert_desc x l) (x :: l).
Proof.
  induction l as [|y r IH]; simpl; [reflexivity|].
  destruct (negb (Qle_bool (overall_score x) (overall_score y))); [reflexivity|].
  rewrite IH. apply perm_swap.
Qed.

Lemma sort_fold_spec (l acc : list PathThreatScore) :
  Sorted score_ge acc ->
  Sorted score_ge (fold_left (fun acc x => insert_desc x acc) l acc) /\
  Permutation (fold_left (fun acc x => insert_desc x acc) l acc) (l ++ acc).
Proof.
  revert acc. induction l as [|x r IH]; intros acc Hs; simpl; [split; [exact Hs | reflexivity]|].
  destruct (IH (insert_desc x acc) (insert_desc_sorted x acc Hs)) as [H1 H2].
  split; [exact H1|]. rewrite H2, insert_desc_perm. symmetry. apply Permutation_middle.
Qed.

(** X10: [score_multiple_paths] returns one score per input entry (a
    permutation of the entries' scores), ordered from the highest overall
    score to the lowest. *)
Theorem score_multiple_paths_sorted_perm (paths : list path_data) :
  Sorted (fun a b => (overall_score b <= overall_score a)%Q) (score_multiple_paths paths) /\
  Permutation (score_multiple_paths paths) (map score_path_data paths).
Proof.
  unfold score_multiple_paths, sort_by_score_desc.
  destruct (sort_fold_spec (map score_path_data paths) [] (Sorted_nil _)) as [H1 H2].
  split; [exact H1|]. rewrite H2, app_nil_r. reflexivity.
Qed.

End ThreatScorerFacts.

(** ** The solver driver: policies, conditions and models *)

Lemma lower_char_idem (c : ascii) : lower_char (lower_char c) = lower_char c.
Proof. destruct c as [[] [] [] [] [] [] [] []]; reflexivity. Qed.

Lemma py_lower_idem (s : string) : py_lower (py_lower s) = py_lower s.
Proof.
  unfold py_lower. induction s as [|c r IH]; simpl; [reflexivity|].
  now rewrite lower_char_idem, IH.
Qed.

Lemma combine_snoc {A B} (xs : list A) (ys : list B) (x : A) (y : B) :
  length xs = length ys ->
  combine (xs ++ [x]) (ys ++ [y]) = (combine xs ys ++ [(x, y)])%list.
Proof.
  revert ys. induction xs as [|a xs IH]; intros [|b ys] Hl; simpl in *;
    try discriminate; [reflexivity|].
  rewrite IH by lia. reflexivity.
Qed.

Lemma dict_get_set {A} (d : list (string * A)) (k k' : string) (v : A) :
  dict_get (dict_set d k' v) k = if String.eqb k k' then Some v else dict_get d k.
Proof.
  induction d as [|[k0 v0] r IH]; simpl; [reflexivity|].
  destruct (String.eqb_spec k' k0) as [<-|Hne]; simpl.
  - destruct (String.eqb k k'); reflexivity.
  - rewrite IH. destruct (String.eqb_spec k k0) as [->|Hk].
    + destruct (String.eqb_spec k0 k') as [->|]; [congruence | reflexivity].
    + reflexivity.
Qed.

Lemma dict_get_app {A} (l1 l2 : list (string * A)) (k : string) :
  dict_get (l1 ++ l2) k = match dict_get l1 k with Some v => Some v | None => dict_get l2 k end.
Proof.
  induction l1 as [|[k0 v0] r IH]; simpl; [reflexivity|].
  destruct (String.eqb k k0); [reflexivity | exact IH].
Qed.

Lemma dict_set_keys {A} (d : list (string * A)) (k x : string) (v : A) :
  In x (map fst (dict_set d k v)) <-> In x (map fst d) \/ x = k.
Proof.
  induction d as [|[k0 v0] r IH]; simpl.
  - split; [intros [->|[]]; right; reflexivity | intros [[]| ->]; left; reflexivity].
  - destruct (String.eqb_spec k k0) as [->|Hne]; simpl.
    + split; [tauto|]. intros [H| ->]; [exact H | left; reflexivity].
    + rewrite IH. tauto.
Qed.

Lemma dict_set_nodup {A} (d : list (string * A)) (k : string) (v : A) :
  NoDup (map fst d) -> NoDup (map fst (dict_set d k v)).
Proof.
  induction d as [|[k0 v0] r IH]; simpl; intros Hn.
  - repeat constructor. intros [].
  - inversion Hn as [|? ? Hk0 Hr]; subst.
    destruct (String.eqb_spec k k0) as [->|Hne]; simpl.
    + constructor; assumption.
    + constructor; [|exact (IH Hr)].
      rewrite dict_set_keys. intros [H|H]; [exact (Hk0 H) | congruence].
Qed.

Lemma model_fold_lookup (m acc : list (string * string)) (k : string) :
  dict_get (fold_left (fun acc kv => dict_set acc (fst kv) (snd kv)) m acc) k =
  match dict_get (rev m) k with Some v => Some v | None => dict_get acc k end.
Proof.
  revert acc. induction m as [|[k0 v0] r IH]; intros acc; simpl; [reflexivity|].
  rewrite IH, dict_get_app, dict_get_set. simpl.
  destruct (dict_get (rev r) k); [reflexivity|].
  destruct (String.eqb k k0); reflexivity.
Qed.

(** X11: the dict [_model_to_dict] builds from a model holds one entry per
    variable, and the value of each variable is the last value the model
    lists for it. *)
Theorem model_to_dict_lookup (m : list (string * string)) :
  NoDup (map fst (_model_to_dict m)) /\
  (forall k, dict_get (_model_to_dict m) k = dict_get (rev m) k).
Proof.
  split.
  - unfold _model_to_dict.
    assert (H : forall acc, NoDup (map fst acc) ->
              NoDup (map fst (fold_left (fun acc kv => dict_set acc (fst kv) (snd kv)) m acc))).
    { induction m as [|kv r IH]; intros acc Hn; simpl; [exact Hn|].
      apply IH, dict_set_nodup, Hn. }
    apply H. constructor.
  - intros k. unfold _model_to_dict. rewrite model_fold_lookup.
    destruct (dict_get (rev m) k); reflexivity.
Qed.

Section Z3VerifierExtras.
Variable z3_string_val_error : pyval -> pyexc.
Variable py_int : pyval -> exc Z.

(** X12: [condition_to_constraint] reads the ["operator"] and the ["key"]
    of a condition without regard to case: upper- or mixed-case spellings
    give the same z3 term (or the same exception) as their lower-case
    forms. *)
Theorem condition_to_constraint_case_insensitive (op key : string)
    (d : list (string * pyval)) :
  condition_to_constraint z3_string_val_error py_int
    (PDict (("operator", PStr op) :: ("key", PStr key) :: d)) =
  condition_to_constraint z3_string_val_error py_int
    (PDict (("operator", PStr (py_lower op)) :: ("key", PStr (py_lower key)) :: d)).
Proof.
  unfold condition_to_constraint.
  cbn [py_get dict_get_default dict_get String.eqb Ascii.eqb Bool.eqb exc_bind py_lower_val].
  rewrite !py_lower_idem. reflexivity.
Qed.

Lemma add_condition_fold (cs : list pyval) :
  forall (l0 : list zexpr) (c0 : converter) (acc : list zexpr * converter),
  exc_fold (add_condition z3_string_val_error py_int) (l0, c0) cs = Ok acc ->
    fst acc = (l0 ++ map snd (recognised_conditions z3_string_val_error py_int cs))%list /\
    conv_constraints (snd acc) =
      (conv_constraints c0 ++ recognised_conditions z3_string_val_error py_int cs)%list /\
    conv_assertions (snd acc) = conv_assertions c0 /\
    conv_timeout (snd acc) = conv_timeout c0.
Proof.
  induction cs as [|c r IH]; intros l0 c0 acc H; cbn [exc_fold recognised_conditions] in *.
  - injection H as <-. simpl. rewrite !app_nil_r. repeat split.
  - unfold add_condition at 1 in H. cbn [fst snd] in H.
    destruct (condition_to_constraint z3_string_val_error py_int c) as [[e|]|x];
      cbn [exc_bind] in H; [| |discriminate H].
    + destruct (py_get c "key" (PStr "unknown")) as [name|x]; cbn [exc_bind] in H;
        [|discriminate H].
      destruct (IH _ _ _ H) as [Hf [Hc [Ha Ht]]].
      cbn [snd record_constraint conv_constraints conv_assertions conv_timeout] in *.
      rewrite Hf, Hc, Ha, Ht, <- !app_assoc. repeat split.
    + destruct (IH _ _ _ H) as [Hf [Hc [Ha Ht]]].
      destruct (py_get c "key" (PStr "unknown")); repeat split; assumption.
Qed.

(** X13: one policy adds at most one solver assertion: the conjunction of
    the terms of its recognised conditions (in order) when its upper-cased
    ["effect"] is [ALLOW], the negation of that conjunction when it is
    [DENY], and nothing when the effect is anything else or no condition is
    recognised.  Each recognised condition is recorded, in order, under its
    ["key"] (["unknown"] when absent), whatever the effect, and the timeout
    is unchanged. *)
Theorem add_policy_assertion (conv : converter) (policy : pyval) (conv' : converter)
    (H : add_policy z3_string_val_error py_int conv policy = Ok conv') :
  exists cs effect,
    (let* conditions := py_get policy "conditions" (PList []) in py_iter conditions)
      = Ok cs /\
    (let* eff := py_get policy "effect" (PStr "Allow") in py_upper_val eff) = Ok effect /\
    conv_constraints conv' =
      (conv_constraints conv ++ recognised_conditions z3_string_val_error py_int cs)%list /\
    conv_timeout conv' = conv_timeout conv /\
    conv_assertions conv' =
      (conv_assertions conv ++
       match map snd (recognised_conditions z3_string_val_error py_int cs) with
       | [] => []
       | cl =>
           if String.eqb effect "ALLOW" then [ZAnd cl]
           else if String.eqb effect "DENY" then [ZNot (ZAnd cl)]
           else []
       end)%list.
Proof.
  unfold add_policy in H.
  destruct (py_get policy "conditions" (PList [])) as [cs|x]; cbn [exc_bind] in H;
    [|discriminate H].
  destruct (py_get policy "effect" (PStr "Allow")) as [eff|x]; cbn [exc_bind] in H;
    [|discriminate H].
  destruct (py_upper_val eff) as [se|x] eqn:Es; cbn [exc_bind] in H; [|discriminate H].
  destruct (py_iter cs) as [l|x] eqn:Ei; cbn [exc_bind] in H; [|discriminate H].
  destruct (exc_fold (add_condition z3_string_val_error py_int) ([], conv) l)
    as [acc|x] eqn:E; cbn [exc_bind] in H; [|discriminate H].
  destruct (add_condition_fold l [] conv acc E) as [Hf [Hc [Has Ht]]].
  exists l, se. cbn [exc_bind]. rewrite Es, Ei.
  split; [reflexivity|]. split; [reflexivity|].
  rewrite Hf in H. simpl app in H.
  destruct (String.eqb se "ALLOW"), (String.eqb se "DENY"),
    (map snd (recognised_conditions z3_string_val_error py_int l)) as [|e0 cl'];
    cbn [andb] in H; injection H as <-; cbn [solver_add conv_constraints conv_timeout
                                               conv_assertions];
    rewrite ?Hc, ?Ht, ?Has, ?app_nil_r; repeat split; reflexivity.
Qed.

End Z3VerifierExtras.

Lemma add_policy_assertion_witness :
  add_policy (fun _ => mk_exc "TypeError" "") (fun _ => Ok 0) (start_converter 5000)
    example_deny_policy
  = Ok (mk_converter
          [ZNot (ZAnd [ZOr [ZEq (ZString "aws:username") (ZStringVal "alice")]])]
          [(PStr "aws:username", ZOr [ZEq (ZString "aws:username") (ZStringVal "alice")])]
          5000) /\
  exists cs effect,
    (let* conditions := py_get example_deny_policy "conditions" (PList []) in
     py_iter conditions) = Ok cs /\
    (let* eff := py_get example_deny_policy "effect" (PStr "Allow") in py_upper_val eff)
      = Ok effect /\
    [(PStr "aws:username", ZOr [ZEq (ZString "aws:username") (ZStringVal "alice")])] =
      (conv_constraints (start_converter 5000) ++
       recognised_conditions (fun _ => mk_exc "TypeError" "") (fun _ => Ok 0) cs)%list /\
    5000 = conv_timeout (start_converter 5000) /\
    [ZNot (ZAnd [ZOr [ZEq (ZString "aws:username") (ZStringVal "alice")]])] =
      (conv_assertions (start_converter 5000) ++
       match map snd (recognised_conditions (fun _ => mk_exc "TypeError" "")
                        (fun _ => Ok 0) cs) with
       | [] => []
       | cl =>
           if String.eqb effect "ALLOW" then [ZAnd cl]
           else if String.eqb effect "DENY" then [ZNot (ZAnd cl)]
           else []
       end)%list.
Proof.
  assert (H : add_policy (fun _ => mk_exc "TypeError" "") (fun _ => Ok 0)
    (start_converter 5000) example_deny_policy
    = Ok (mk_converter
          [ZNot (ZAnd [ZOr [ZEq (ZString "aws:username") (ZStringVal "alice")]])]
          [(PStr "aws:username", ZOr [ZEq (ZString "aws:username") (ZStringVal "alice")])]
          5000)) by (vm_compute; reflexivity).
  split; [exact H|].
  exact (add_policy_assertion _ _ _ _ _ H).
Defined.

(** ** The condition evaluator on a context that lacks the key *)

Section MissingKey.
Context {L : PyLib}.

(** X14: when the context has no entry for a key [k] (and [k] holds no
    [":"]), every negated operator on [k] ([StringNotEquals],
    [StringNotLike], [NotIpAddress], [ArnNotLike]) is satisfied, whatever
    the policy value, while the positive string, IP and ARN operators, and
    a bare key (read as [StringEquals]), are not. *)
Theorem missing_context_key_operators (context : list (string * pyval)) (k : string)
    (value : pyval)
    (Hk : dict_get context k = None) (Hcolon : count_char ":" k = O) :
  (forall op, In op ["StringNotEquals"; "StringNotLike"; "NotIpAddress"; "ArnNotLike"] ->
     _evaluate_condition_key context (op ++ ":" ++ k) value = true) /\
  (forall op, In op ["StringEquals"; "StringEqualsIgnoreCase"; "StringLike";
                     "IpAddress"; "ArnLike"] ->
     _evaluate_condition_key context (op ++ ":" ++ k) value = false) /\
  _evaluate_condition_key context k value = false.
Proof.
  assert (Hc : dict_get_default context k PNone = PNone)
    by (unfold dict_get_default; now rewrite Hk).
  split; [|split].
  - intros op Hop. simpl in Hop.
    destruct Hop as [<-|[<-|[<-|[<-|[]]]]]; unfold _evaluate_condition_key;
      rewrite split_key_one_colon by (reflexivity || exact Hcolon); rewrite Hc;
      reflexivity.
  - intros op Hop. simpl in Hop.
    destruct Hop as [<-|[<-|[<-|[<-|[<-|[]]]]]]; unfold _evaluate_condition_key;
      rewrite split_key_one_colon by (reflexivity || exact Hcolon); rewrite Hc;
      reflexivity.
  - unfold _evaluate_condition_key. rewrite split_key_bare by exact Hcolon.
    rewrite Hc. reflexivity.
Qed.

End MissingKey.

Lemma missing_context_key_operators_witness :
  dict_get example_context "mfa" = None /\ count_char ":" "mfa" = O /\
  ((forall op, In op ["StringNotEquals"; "StringNotLike"; "NotIpAddress"; "ArnNotLike"] ->
     _evaluate_condition_key (L := py_lib) example_context (op ++ ":" ++ "mfa")
       (PStr "true") = true) /\
   (forall op, In op ["StringEquals"; "StringEqualsIgnoreCase"; "StringLike";
                      "IpAddress"; "ArnLike"] ->
     _evaluate_condition_key (L := py_lib) example_context (op ++ ":" ++ "mfa")
       (PStr "true") = false) /\
   _evaluate_condition_key (L := py_lib) example_context "mfa" (PStr "true") = false).
Proof.
  split; [reflexivity|]. split; [reflexivity|].
  exact (missing_context_key_operators (L := py_lib) example_context "mfa" (PStr "true")
           eq_refl eq_refl).
Defined.
